(** * composited-card: the compositing decisions of the card web component

    A shallow embedding of [src/composited-card.component.ts]: the two
    quality tables and the quality lookup done by [render], the unwrapping
    of the payload fetched from the proto endpoint, the injection of
    caller-supplied data, the resize handler, and the layer stack that
    [render] hands to the templating functions.

    JavaScript values are modelled as they exist at run time (the
    TypeScript annotations of the source are erased by compilation), numbers
    are IEEE 754 binary64 floats, strings are kept in UTF-8, objects are
    finite maps from property names to values (the values of a JSON
    document all have the default prototype; the one object of the
    component that can have another, the stored card record, carries it
    beside its own members), and a thrown exception is an explicit abrupt
    completion. *)

From Stdlib Require Import Floats ZArith NArith Ascii.
From stdpp Require Import gmap strings list fin_maps pretty.

Local Open Scope string_scope.
#[local] Set Warnings "-inexact-float,-register-all".

(** ** JavaScript values *)

Module Js.

(** The values a JSON response or a property of the element can hold. *)
Inductive JsValue : Type :=
  | JUndefined
  | JNull
  | JBool (b : bool)
  | JNum (x : float)
  | JStr (s : string)
  | JArr (l : list JsValue)
  | JObj (m : gmap string JsValue).

(** The only exception the component's own code can raise: reading a
    property of [undefined] or [null]. *)
Inductive JsError : Type :=
  | TypeError.

(** Completion of an evaluation: a value, or a thrown exception. *)
Inductive Completion (A : Type) : Type :=
  | Normal (a : A)
  | Throw (e : JsError).
Arguments Normal {A} a.
Arguments Throw {A} e.

#[global] Instance completion_ret : MRet Completion := @Normal.
#[global] Instance completion_bind : MBind Completion :=
  λ A B f c, match c with
             | Normal a => f a
             | Throw e => Throw e
             end.

Definition is_nullish (v : JsValue) : bool :=
  match v with
  | JUndefined | JNull => true
  | _ => false
  end.

(** [o[k]] on an object known to be one: a missing own property reads
    as [undefined]. *)
Definition prop (o : gmap string JsValue) (k : string) : JsValue :=
  default JUndefined (o !! k).

(** [v.k] for an arbitrary value [v]. Reading a property of [undefined]
    or [null] throws a [TypeError]; a primitive or an array has none of
    the property names this component reads ([id], [Int64], [String],
    ...: no index, no [length], no prototype member), so the read gives
    [undefined]. *)
Definition get (v : JsValue) (k : string) : Completion JsValue :=
  match v with
  | JUndefined | JNull => Throw TypeError
  | JObj m => Normal (prop m k)
  | JBool _ | JNum _ | JStr _ | JArr _ => Normal JUndefined
  end.

(** [arr[i]] for an array of strings and an integral index: any index
    outside [0 .. length-1], negative ones included, reads [undefined]. *)
Definition index (arr : list string) (i : Z) : JsValue :=
  if (i <? 0)%Z then JUndefined
  else match arr !! Z.to_nat i with
       | Some s => JStr s
       | None => JUndefined
       end.

(** [v === s] for a string literal [s]. *)
Definition strict_eq_string (v : JsValue) (s : string) : bool :=
  match v with
  | JStr t => String.eqb t s
  | _ => false
  end.

(** *** Strings as sequences of UTF-16 code units

    A string of the model is the UTF-8 text of the JavaScript string. The
    indexed members of a JavaScript string are its UTF-16 code units: a
    character of one, two or three bytes is one unit, a character of four
    bytes (beyond the basic plane) is two units, its high and its low
    surrogate. A unit is given back as the string that holds it alone; a
    lone surrogate is written in the three-byte form of its code. A byte
    that starts no well-formed sequence counts as a unit of its own. *)

Definition isContinuation (b : ascii) : bool :=
  (128 <=? N_of_ascii b)%N && (N_of_ascii b <? 192)%N.

(** The number of bytes the sequence led by [b] has. *)
Definition sequenceLength (b : ascii) : nat :=
  let n := N_of_ascii b in
  if (n <? 192)%N then 1
  else if (n <? 224)%N then 2
  else if (n <? 240)%N then 3
  else if (n <? 248)%N then 4
  else 1.

(** The three-byte form of a code unit from 0x800 up. *)
Definition threeBytes (u : N) : string :=
  String (ascii_of_N (224 + u / 4096))
    (String (ascii_of_N (128 + (u / 64) mod 64))
       (String (ascii_of_N (128 + u mod 64)) EmptyString)).

(** The code point a four-byte sequence encodes. *)
Definition codePoint4 (b0 b1 b2 b3 : ascii) : N :=
  (N_of_ascii b0 mod 8) * 262144 + (N_of_ascii b1 mod 64) * 4096
  + (N_of_ascii b2 mod 64) * 64 + N_of_ascii b3 mod 64.

Definition highSurrogate (cp : N) : N := 55296 + (cp - 65536) / 1024.
Definition lowSurrogate (cp : N) : N := 56320 + (cp - 65536) mod 1024.

(** The code units of a string, each as the string that holds it alone:
    what [s[0]], [s[1]], ... read. *)
Fixpoint chars (s : string) : list JsValue :=
  match s with
  | EmptyString => []
  | String b0 s1 =>
      match sequenceLength b0, s1 with
      | 2, String b1 s2 =>
          if isContinuation b1
          then JStr (String b0 (String b1 EmptyString)) :: chars s2
          else JStr (String b0 EmptyString) :: chars s1
      | 3, String b1 (String b2 s3) =>
          if isContinuation b1 && isContinuation b2
          then JStr (String b0 (String b1 (String b2 EmptyString))) :: chars s3
          else JStr (String b0 EmptyString) :: chars s1
      | 4, String b1 (String b2 (String b3 s4)) =>
          if isContinuation b1 && isContinuation b2 && isContinuation b3
          then JStr (threeBytes (highSurrogate (codePoint4 b0 b1 b2 b3)))
               :: JStr (threeBytes (lowSurrogate (codePoint4 b0 b1 b2 b3)))
               :: chars s4
          else JStr (String b0 EmptyString) :: chars s1
      | _, _ => JStr (String b0 EmptyString) :: chars s1
      end
  end.

(** Own enumerable properties of an indexed value: index [i] under the
    key that is [i] in decimal. *)
Definition indexed (l : list JsValue) : gmap string JsValue :=
  list_to_map (imap (λ i x, (pretty i, x)) l).

(** *** Copying an object: [{ ...v }]

    The spread of the source is compiled to [Object.assign({}, v)]: every
    own enumerable property of [v] is assigned to a fresh object.
    [undefined], [null], booleans and numbers have none; a string and an
    array have their indexed members. An assignment to the name
    [__proto__] does not create a member: it reaches the setter every
    object inherits, which makes an object or [null] the prototype of the
    target and ignores any other value. *)

(** The own members of [{ ...v }]. *)
Definition spread (v : JsValue) : gmap string JsValue :=
  match v with
  | JObj m => delete "__proto__" m
  | JArr l => indexed l
  | JStr s => indexed (chars s)
  | JUndefined | JNull | JBool _ | JNum _ => ∅
  end.

(** The prototype of [{ ...v }] when the copy installed one; [None]: the
    prototype every object literal has. *)
Definition spreadPrototype (v : JsValue) : option JsValue :=
  match v with
  | JObj m =>
      match m !! "__proto__" with
      | Some (JObj p) => Some (JObj p)
      | Some (JArr l) => Some (JArr l)
      | Some JNull => Some JNull
      | _ => None
      end
  | _ => None
  end.

(** [o.k] for an object with own members [own] and prototype [prototype],
    for the names the component reads of its card record ([rarity], [id],
    [set] and the other card members): the own member if there is one,
    else the member of the prototype if that is a plain object; neither
    [Object.prototype] nor [Array.prototype] has a member of such a
    name. *)
Definition inheritedProp (own : gmap string JsValue) (prototype : option JsValue)
  (k : string) : JsValue :=
  match own !! k with
  | Some v => v
  | None =>
      match prototype with
      | Some (JObj p) => prop p k
      | _ => JUndefined
      end
  end.

End Js.
Import Js.

(** ** The quality tables *)

Definition legacyQualities : list string :=
  [ "plain";
    (* there may be quality-0 items in future; for now they use the plain
       layer imagery *)
    "plain";
    "bronze";
    "iron";
    "meteorite";
    "shadow";
    "gold";
    "diamond" ].

Definition qualities : list string :=
  [ "diamond"; "gold"; "shadow"; "meteorite"; "plain" ].

(** The [qualityName] constant computed at the head of [render]:
    [useLegacyQualityMapping ? legacyQualities[quality] : qualities[quality - 1]]. *)
Definition qualityName (useLegacyQualityMapping : bool) (quality : Z) : JsValue :=
  if useLegacyQualityMapping
  then index legacyQualities quality
  else index qualities (quality - 1).

(** ** The component *)

(** The instance fields of [CompositedCard]. The five [@property] inputs
    hold whatever the host page assigned; [quality] is declared with the
    literal type [0 | 1 | ... | 7] and is modelled as an integer.
    [protoCardData] holds the own members of the object the field refers
    to and [protoCardDataPrototype] its prototype, [None] standing for the
    prototype of an object literal. [updateRequests] counts the calls to
    LitElement's [requestUpdate]. *)
Record CompositedCard : Type := {
  protoId : JsValue;
  quality : Z;
  inputProtoData : JsValue;
  responsiveSrcsetSizes : JsValue;
  useLegacyQualityMapping : bool;
  protoCardData : gmap string JsValue;
  protoCardDataPrototype : option JsValue;
  ch : float;
  cw : float;
  loading : bool;
  updateRequests : nat
}.

Definition set_protoId (v : JsValue) (this : CompositedCard) : CompositedCard :=
  {| protoId := v;
     quality := quality this;
     inputProtoData := inputProtoData this;
     responsiveSrcsetSizes := responsiveSrcsetSizes this;
     useLegacyQualityMapping := useLegacyQualityMapping this;
     protoCardData := protoCardData this;
     protoCardDataPrototype := protoCardDataPrototype this;
     ch := ch this;
     cw := cw this;
     loading := loading this;
     updateRequests := updateRequests this |}.

Definition set_quality (q : Z) (this : CompositedCard) : CompositedCard :=
  {| protoId := protoId this;
     quality := q;
     inputProtoData := inputProtoData this;
     responsiveSrcsetSizes := responsiveSrcsetSizes this;
     useLegacyQualityMapping := useLegacyQualityMapping this;
     protoCardData := protoCardData this;
     protoCardDataPrototype := protoCardDataPrototype this;
     ch := ch this;
     cw := cw this;
     loading := loading this;
     updateRequests := updateRequests this |}.

Definition set_inputProtoData (v : JsValue) (this : CompositedCard) : CompositedCard :=
  {| protoId := protoId this;
     quality := quality this;
     inputProtoData := v;
     responsiveSrcsetSizes := responsiveSrcsetSizes this;
     useLegacyQualityMapping := useLegacyQualityMapping this;
     protoCardData := protoCardData this;
     protoCardDataPrototype := protoCardDataPrototype this;
     ch := ch this;
     cw := cw this;
     loading := loading this;
     updateRequests := updateRequests this |}.

(** [this.protoCardData = { ... }] for an object literal with the members
    [d]: the field refers to a new object, with the prototype of a
    literal. *)
Definition set_protoCardData (d : gmap string JsValue) (this : CompositedCard) : CompositedCard :=
  {| protoId := protoId this;
     quality := quality this;
     inputProtoData := inputProtoData this;
     responsiveSrcsetSizes := responsiveSrcsetSizes this;
     useLegacyQualityMapping := useLegacyQualityMapping this;
     protoCardData := d;
     protoCardDataPrototype := None;
     ch := ch this;
     cw := cw this;
     loading := loading this;
     updateRequests := updateRequests this |}.

(** The prototype of the object the field refers to. *)
Definition set_protoCardDataPrototype (prototype : option JsValue) (this : CompositedCard)
  : CompositedCard :=
  {| protoId := protoId this;
     quality := quality this;
     inputProtoData := inputProtoData this;
     responsiveSrcsetSizes := responsiveSrcsetSizes this;
     useLegacyQualityMapping := useLegacyQualityMapping this;
     protoCardData := protoCardData this;
     protoCardDataPrototype := prototype;
     ch := ch this;
     cw := cw this;
     loading := loading this;
     updateRequests := updateRequests this |}.

Definition set_ch (x : float) (this : CompositedCard) : CompositedCard :=
  {| protoId := protoId this;
     quality := quality this;
     inputProtoData := inputProtoData this;
     responsiveSrcsetSizes := responsiveSrcsetSizes this;
     useLegacyQualityMapping := useLegacyQualityMapping this;
     protoCardData := protoCardData this;
     protoCardDataPrototype := protoCardDataPrototype this;
     ch := x;
     cw := cw this;
     loading := loading this;
     updateRequests := updateRequests this |}.

Definition set_cw (x : float) (this : CompositedCard) : CompositedCard :=
  {| protoId := protoId this;
     quality := quality this;
     inputProtoData := inputProtoData this;
     responsiveSrcsetSizes := responsiveSrcsetSizes this;
     useLegacyQualityMapping := useLegacyQualityMapping this;
     protoCardData := protoCardData this;
     protoCardDataPrototype := protoCardDataPrototype this;
     ch := ch this;
     cw := x;
     loading := loading this;
     updateRequests := updateRequests this |}.

Definition set_loading (b : bool) (this : CompositedCard) : CompositedCard :=
  {| protoId := protoId this;
     quality := quality this;
     inputProtoData := inputProtoData this;
     responsiveSrcsetSizes := responsiveSrcsetSizes this;
     useLegacyQualityMapping := useLegacyQualityMapping this;
     protoCardData := protoCardData this;
     protoCardDataPrototype := protoCardDataPrototype this;
     ch := ch this;
     cw := cw this;
     loading := b;
     updateRequests := updateRequests this |}.

(** [this.requestUpdate()]: one more update asked of LitElement. *)
Definition requestUpdate (this : CompositedCard) : CompositedCard :=
  {| protoId := protoId this;
     quality := quality this;
     inputProtoData := inputProtoData this;
     responsiveSrcsetSizes := responsiveSrcsetSizes this;
     useLegacyQualityMapping := useLegacyQualityMapping this;
     protoCardData := protoCardData this;
     protoCardDataPrototype := protoCardDataPrototype this;
     ch := ch this;
     cw := cw this;
     loading := loading this;
     updateRequests := S (updateRequests this) |}.

(** The initializer of the [protoCardData] field. *)
Definition emptyProtoCardData : gmap string JsValue :=
  <["art_id" := JStr ""]>
  (<["tribe" := JStr ""]>
  (<["health" := JNull]>
  (<["attack" := JNull]>
  (<["id" := JStr ""]>
  (<["mana" := JStr ""]>
  (<["set" := JStr ""]>
  (<["god" := JStr ""]>
  (<["rarity" := JStr ""]>
  (<["name" := JStr ""]>
  (<["effect" := JStr ""]>
  (<["type" := JStr ""]> ∅))))))))))).

(** The instance as the field initializers of the class leave it, before
    the body of the constructor runs: [quality = 5],
    [useLegacyQualityMapping = false], [protoCardData] as above; the inputs
    declared without an initializer are [undefined]. [loading], [ch] and
    [cw] have none either and are assigned by the constructor before
    anything reads them; until then they stand at [false] (the truth value
    of [undefined]) and [nan]. *)
Definition fieldInitializers : CompositedCard :=
  {| protoId := JUndefined;
     quality := 5;
     inputProtoData := JUndefined;
     responsiveSrcsetSizes := JUndefined;
     useLegacyQualityMapping := false;
     protoCardData := emptyProtoCardData;
     protoCardDataPrototype := None;
     ch := nan;
     cw := nan;
     loading := false;
     updateRequests := 0 |}.

(** The body of the constructor, run on the initialized fields.
    [offsetHeight] and [offsetWidth] are the host element's own layout
    dimensions at that moment. *)
Definition constructor (offsetHeight offsetWidth : float) : CompositedCard :=
  let this := fieldInitializers in
  let this := set_loading true this in
  let this := set_quality 0 this in
  let this := set_ch (offsetHeight * 0.01)%float this in
  let this := set_cw (offsetWidth * 0.01)%float this in
  this.

(** *** Resize handling *)

(** What [handleResize] reads of the DOM: the event's target (the host
    element), the element children of its shadow root, and the layout
    dimensions of the first of them. *)
Record HTMLElement : Type := {
  offsetHeight : float;
  offsetWidth : float
}.

Record ShadowRoot : Type := {
  children : list HTMLElement
}.

Record EventTarget : Type := {
  shadowRoot : ShadowRoot
}.

Record UIEvent : Type := {
  target : EventTarget
}.

(** [children[0]] followed by a property read: with no child the array
    read gives [undefined] and the property read throws. *)
Definition firstChild (r : ShadowRoot) : Completion HTMLElement :=
  match children r with
  | container :: _ => Normal container
  | [] => Throw TypeError
  end.

Definition handleResize (event : UIEvent) (this : CompositedCard) : Completion CompositedCard :=
  container ← firstChild (shadowRoot (target event));
  let this := set_ch (offsetHeight container * 0.01)%float this in
  let this := set_cw (offsetWidth container * 0.01)%float this in
  mret (requestUpdate this).

(** The callback of the module's [ResizeObserver], for the entries whose
    target is this instance: [entries.forEach] calls [handleResize] on each
    entry in order, and an exception ends the iteration. *)
Fixpoint resizeObserverCallback (entries : list UIEvent) (this : CompositedCard)
  : Completion CompositedCard :=
  match entries with
  | [] => mret this
  | entry :: rest => this' ← handleResize entry this; resizeObserverCallback rest this'
  end.

(** The instance as each handled entry leaves it, in the order of the
    entries, up to the first exception. *)
Fixpoint resizeStates (entries : list UIEvent) (this : CompositedCard) : list CompositedCard :=
  match entries with
  | [] => []
  | entry :: rest =>
      match handleResize entry this with
      | Normal this' => this' :: resizeStates rest this'
      | Throw _ => []
      end
  end.

Definition sizeUnits (this : CompositedCard) : float * float := (ch this, cw this).

(** An event whose target has rendered: its shadow root has a first child. *)
Definition rendered (event : UIEvent) : bool :=
  match children (shadowRoot (target event)) with
  | _ :: _ => true
  | [] => false
  end.

(** The notification [{h, w}]: a target whose container measures [h] by [w]. *)
Definition resized (h w : float) : UIEvent :=
  {| target := {| shadowRoot := {| children := [ {| offsetHeight := h; offsetWidth := w |} ] |} |} |}.

(** An event whose target has not rendered yet: its shadow root is empty. *)
Definition unrendered : UIEvent :=
  {| target := {| shadowRoot := {| children := [] |} |} |}.

(** What the observer reports with an entry beside its target: the size
    it observed for the content box of the target. *)
Record ContentRect : Type := {
  height : float;
  width : float
}.

(** An entry as the observer delivers it. [handleResize] is handed the
    entry as its [event] and reads nothing of it but the target. *)
Record Observation : Type := {
  contentRect : ContentRect;
  asEvent : UIEvent
}.

(** *** Acquiring the card data *)

(** The request [fetch] is called with: the endpoint, and the value of
    [protoId] interpolated after it. *)
Record FetchRequest : Type := {
  endpoint : string;
  interpolated : JsValue
}.

(** [fetchProtoData] up to the call of [fetch]: raise [loading] and issue
    the request for the current [protoId]. *)
Definition fetchProtoData (this : CompositedCard) : CompositedCard * FetchRequest :=
  (set_loading true this,
   {| endpoint := "https://api.godsunchained.com/v0/proto/";
      interpolated := protoId this |}).

(** The object literal assigned to [protoCardData] by the callback below. *)
Definition protoCardDataOf
  (id type attack_Int64 health_Int64 effect name rarity god mana set tribe_String art_id : JsValue)
  : gmap string JsValue :=
  <["art_id" := art_id]>
  (<["tribe" := tribe_String]>
  (<["set" := set]>
  (<["mana" := mana]>
  (<["god" := god]>
  (<["rarity" := rarity]>
  (<["name" := name]>
  (<["effect" := effect]>
  (<["health" := health_Int64]>
  (<["attack" := attack_Int64]>
  (<["type" := type]>
  (<["id" := id]> ∅))))))))))).

(** The unwrapping done by the callback: destructure the twelve members of
    [data], then build the record, reading [attack.Int64], [health.Int64]
    and [tribe.String] on the way. *)
Definition normalize (data : JsValue) : Completion (gmap string JsValue) :=
  id ← get data "id";
  type ← get data "type";
  attack ← get data "attack";
  health ← get data "health";
  effect ← get data "effect";
  name ← get data "name";
  rarity ← get data "rarity";
  god ← get data "god";
  mana ← get data "mana";
  set ← get data "set";
  tribe ← get data "tribe";
  art_id ← get data "art_id";
  attack_Int64 ← get attack "Int64";
  health_Int64 ← get health "Int64";
  tribe_String ← get tribe "String";
  mret (protoCardDataOf id type attack_Int64 health_Int64 effect name rarity
          god mana set tribe_String art_id).

(** The callback that [getProtoDataFromApi] chains on the fetched JSON.
    An exception leaves the instance as it was (the assignment has not
    happened yet) and rejects the promise; nothing in the component
    handles that rejection. *)
Definition getProtoDataFromApi_then (data : JsValue) (this : CompositedCard)
  : Completion CompositedCard :=
  record ← normalize data;
  let this := set_protoCardData record this in
  let this := set_loading false this in
  mret (requestUpdate this).

(** [getProtoDataFromApi] up to the suspension on the fetch. *)
Definition getProtoDataFromApi (this : CompositedCard) : CompositedCard * FetchRequest :=
  fetchProtoData this.

(** [this.protoCardData = { ...this.inputProtoData }]: the field refers
    to the copy, with the members and the prototype the copying gave it. *)
Definition getProtoDataFromInput (this : CompositedCard) : CompositedCard :=
  let this := set_protoCardData (spread (inputProtoData this)) this in
  let this := set_protoCardDataPrototype (spreadPrototype (inputProtoData this)) this in
  let this := set_loading false this in
  requestUpdate this.

(** [updated(changedProps)]: for each changed property name in turn, start
    a fetch for [protoId], take over the data for [inputProtoData]. The
    requests issued are returned with the instance. *)
Fixpoint updated (changedProps : list string) (this : CompositedCard)
  : CompositedCard * list FetchRequest :=
  match changedProps with
  | [] => (this, [])
  | propName :: rest =>
      if String.eqb propName "protoId" then
        let '(this, request) := getProtoDataFromApi this in
        let '(this, requests) := updated rest this in
        (this, request :: requests)
      else if String.eqb propName "inputProtoData" then
        updated rest (getProtoDataFromInput this)
      else updated rest this
  end.

(** *** Rendering *)

(** [this.protoCardData.k], for the members [render] reads by name. *)
Definition cardData (this : CompositedCard) (k : string) : JsValue :=
  inheritedProp (protoCardData this) (protoCardDataPrototype this) k.

(** A layer descriptor: one call of a function of the [templating] module,
    with the parameter object it is given. The functions themselves are
    outside this file; their calls are kept as data, in document order. *)
Inductive Layer : Type :=
  | loadingTemplate
  | baseArtworkLayersTemplate (params : gmap string JsValue)
  | mythicImageLayersTemplate (params : gmap string JsValue)
  | nonMythicImageLayersTemplate (params : gmap string JsValue)
  | textLayersTemplate (params : gmap string JsValue).

(** [{ id: this.protoCardData.id, responsiveSrcsetSizes: ... }] *)
Definition baseArtworkParams (this : CompositedCard) : gmap string JsValue :=
  <["responsiveSrcsetSizes" := responsiveSrcsetSizes this]>
  (<["id" := cardData this "id"]> ∅).

(** [{ responsiveSrcsetSizes: ..., ...this.protoCardData }]: the members
    spread last win over the ones written before them. Only own members
    are spread; what the record inherits stays behind. *)
Definition mythicParams (this : CompositedCard) : gmap string JsValue :=
  protoCardData this ∪
  <["responsiveSrcsetSizes" := responsiveSrcsetSizes this]> ∅.

(** [{ qualityName: qualityName, responsiveSrcsetSizes: ..., ...this.protoCardData }] *)
Definition nonMythicParams (name : JsValue) (this : CompositedCard) : gmap string JsValue :=
  protoCardData this ∪
  <["responsiveSrcsetSizes" := responsiveSrcsetSizes this]>
  (<["qualityName" := name]> ∅).

(** [{ ch: ..., cw: ..., ...this.protoCardData, cardSet: this.protoCardData.set }] *)
Definition textParams (this : CompositedCard) : gmap string JsValue :=
  <["cardSet" := cardData this "set"]>
  (protoCardData this ∪
   <["cw" := JNum (cw this)]> (<["ch" := JNum (ch this)]> ∅)).

(** [render]: the template calls placed inside the ratio-constraining
    [div], in order. *)
Definition render (this : CompositedCard) : list Layer :=
  let qualityName := qualityName (useLegacyQualityMapping this) (quality this) in
  let isMythicCard := strict_eq_string (cardData this "rarity") "mythic" in
  if loading this
  then [ loadingTemplate ]
  else [ baseArtworkLayersTemplate (baseArtworkParams this);
         if isMythicCard
         then mythicImageLayersTemplate (mythicParams this)
         else nonMythicImageLayersTemplate (nonMythicParams qualityName this);
         textLayersTemplate (textParams this) ].

(** ** The page around the component *)

(** One card on a page, the fetches it has started that have not settled
    yet (by order of issue), the number of fetches started so far, and the
    fetches whose callback threw. *)
Record Page : Type := {
  card : CompositedCard;
  pending : gmap nat FetchRequest;
  issued : nat;
  rejected : list nat
}.

(** What can happen to the card, one task of the event loop each:
    - [ProtoIdChanged v]: the host assigned [v] to [protoId], and the
      update cycle that follows ends in [updated] with that one property
      changed;
    - [InputProtoDataChanged v]: the same for [inputProtoData];
    - [FetchResolved request data]: the response of fetch number [request]
      arrived and parsed to [data];
    - [Resized entries]: the resize observer delivers [entries] for this
      card. *)
Inductive Event : Type :=
  | ProtoIdChanged (v : JsValue)
  | InputProtoDataChanged (v : JsValue)
  | FetchResolved (request : nat) (data : JsValue)
  | Resized (entries : list UIEvent).

(** File the requests an update started, numbering them from [issued]. *)
Fixpoint enqueue (requests : list FetchRequest) (p : Page) : Page :=
  match requests with
  | [] => p
  | request :: rest =>
      enqueue rest
        {| card := card p;
           pending := <[issued p := request]> (pending p);
           issued := S (issued p);
           rejected := rejected p |}
  end.

Definition with_card (this : CompositedCard) (p : Page) : Page :=
  {| card := this; pending := pending p; issued := issued p; rejected := rejected p |}.

(** One event. [None]: the event cannot happen on this page (a response for
    a fetch that is not outstanding). *)
Definition step (p : Page) (e : Event) : option Page :=
  match e with
  | ProtoIdChanged v =>
      let '(this, requests) := updated [ "protoId" ] (set_protoId v (card p)) in
      Some (enqueue requests (with_card this p))
  | InputProtoDataChanged v =>
      let '(this, requests) := updated [ "inputProtoData" ] (set_inputProtoData v (card p)) in
      Some (enqueue requests (with_card this p))
  | FetchResolved request data =>
      match pending p !! request with
      | None => None
      | Some _ =>
          match getProtoDataFromApi_then data (card p) with
          | Normal this =>
              Some {| card := this;
                      pending := delete request (pending p);
                      issued := issued p;
                      rejected := rejected p |}
          | Throw _ =>
              Some {| card := card p;
                      pending := delete request (pending p);
                      issued := issued p;
                      rejected := rejected p ++ [ request ] |}
          end
      end
  | Resized entries =>
      Some (with_card (List.last (resizeStates entries (card p)) (card p)) p)
  end.

Fixpoint run (events : list Event) (p : Page) : option Page :=
  match events with
  | [] => Some p
  | e :: rest =>
      match step p e with
      | Some p' => run rest p'
      | None => None
      end
  end.

(** A page on which the card has just been constructed. *)
Definition newPage (offsetHeight offsetWidth : float) : Page :=
  {| card := constructor offsetHeight offsetWidth;
     pending := ∅;
     issued := 0;
     rejected := [] |}.

(** ** Shapes of payloads *)

(** The own property [k] of [v], if [v] is an object that has one. *)
Definition member (v : JsValue) (k : string) : option JsValue :=
  match v with
  | JObj m => m !! k
  | _ => None
  end.

(** [data.k] is nothing a property can be read from: [data] itself is
    [undefined] or [null], or its member [k] is (absent members read as
    [undefined]). *)
Definition nullishMember (data : JsValue) (k : string) : bool :=
  match get data k with
  | Normal v => is_nullish v
  | Throw _ => true
  end.

(** A payload with its three envelopes in place: [attack] and [health]
    are objects with an [Int64] member, [tribe] is an object with a
    [String] member. *)
Definition wellFormed (data : JsValue) : bool :=
  bool_decide (is_Some (member data "attack" ≫= λ attack, member attack "Int64"))
  && bool_decide (is_Some (member data "health" ≫= λ health, member health "Int64"))
  && bool_decide (is_Some (member data "tribe" ≫= λ tribe, member tribe "String")).

(** The members the callback copies as they are. *)
Definition verbatimMembers : list string :=
  [ "id"; "type"; "effect"; "name"; "rarity"; "god"; "mana"; "set"; "art_id" ].

(** The members of the record the callback builds. *)
Definition recordMembers : list string :=
  [ "id"; "type"; "attack"; "health"; "effect"; "name"; "rarity"; "god";
    "mana"; "set"; "tribe"; "art_id" ].

(** ** Sample data *)

(** The wrapper the endpoint puts around a number or a string:
    [{ Int64: v }], [{ String: v }]. *)
Definition envelope (member : string) (v : JsValue) : JsValue :=
  JObj (<[member := v]> ∅).

(** A payload as the endpoint serves it, with the three members that
    arrive wrapped left open. *)
Definition rawPayload (name rarity : string) (attack health tribe : JsValue) : JsValue :=
  JObj
    (<["id" := JNum 1]>
    (<["type" := JStr "creature"]>
    (<["attack" := attack]>
    (<["health" := health]>
    (<["effect" := JStr "Roar"]>
    (<["name" := JStr name]>
    (<["rarity" := JStr rarity]>
    (<["god" := JStr "nature"]>
    (<["mana" := JNum 2]>
    (<["set" := JStr "core"]>
    (<["tribe" := tribe]>
    (<["art_id" := JStr "a1"]> ∅)))))))))))).

(** [{ attack: { Int64: 5 }, health: { Int64: 3 }, tribe: { String: "beast" }, ... }] *)
Definition beastPayload (name rarity : string) : JsValue :=
  rawPayload name rarity
    (envelope "Int64" (JNum 5)) (envelope "Int64" (JNum 3))
    (envelope "String" (JStr "beast")).

(** The record that payload unwraps to. *)
Definition beastRecord (name rarity : string) : gmap string JsValue :=
  protoCardDataOf (JNum 1) (JStr "creature") (JNum 5) (JNum 3) (JStr "Roar")
    (JStr name) (JStr rarity) (JStr "nature") (JNum 2) (JStr "core")
    (JStr "beast") (JStr "a1").

(** The same payload with an [attack] envelope that has no [Int64]. *)
Definition bearWithoutInt64 : JsValue :=
  rawPayload "Bear" "common"
    (JObj ∅) (envelope "Int64" (JNum 3)) (envelope "String" (JStr "beast")).

(** The same payload with no [attack] member at all. *)
Definition bearWithoutAttack : JsValue :=
  rawPayload "Bear" "common"
    JUndefined (envelope "Int64" (JNum 3)) (envelope "String" (JStr "beast")).

(** A freshly constructed card that was handed [data] directly. *)
Definition cardWithInput (data : gmap string JsValue) : CompositedCard :=
  getProtoDataFromInput (set_inputProtoData (JObj data) (constructor 0 0)).

(** ** The shared resize observer *)

(** One entry delivered by the module's single [ResizeObserver]: the
    element it is about (cards are told apart by a number) and what
    [handleResize] reads of that element through [event.target]. *)
Record ResizeObserverEntry : Type := {
  observed : nat;
  entry : UIEvent
}.

(** The observer's callback over all the cards of the page:
    [entries.forEach] takes each entry's target and calls its
    [handleResize] with the entry. A target that is no card has no such
    method, and calling it throws; so does the handler on a target that
    has not rendered. An exception ends the iteration. *)
Fixpoint ro_callback (entries : list ResizeObserverEntry)
  (cards : gmap nat CompositedCard) : Completion (gmap nat CompositedCard) :=
  match entries with
  | [] => mret cards
  | e :: rest =>
      match cards !! observed e with
      | Some el =>
          el' ← handleResize (entry e) el;
          ro_callback rest (<[observed e := el']> cards)
      | None => Throw TypeError
      end
  end.

(** The events among [entries] that are about card [id], in order. *)
Definition entriesFor (id : nat) (entries : list ResizeObserverEntry) : list UIEvent :=
  entry <$> filter (λ e, observed e = id) entries.

(** ** Measures on traces *)

Definition isProtoIdChanged (e : Event) : bool :=
  match e with
  | ProtoIdChanged _ => true
  | _ => false
  end.

(** The request that [fetchProtoData] issues for identifier [v]. *)
Definition requestFor (v : JsValue) : FetchRequest :=
  {| endpoint := "https://api.godsunchained.com/v0/proto/"; interpolated := v |}.

(** The inputs of a card that only the host page assigns, apart from the
    identifier and the direct data. *)
Definition hostInputs (this : CompositedCard) : Z * bool * JsValue :=
  (quality this, useLegacyQualityMapping this, responsiveSrcsetSizes this).

(** * Properties *)

(** ** Helper lemmas *)

Lemma strict_eq_string_true (v : JsValue) (s : string) :
  strict_eq_string v s = true ↔ v = JStr s.
Proof.
  destruct v as [| | b | x | t | l | m]; simpl; try (split; [discriminate | congruence]).
  rewrite String.eqb_eq. split; [intros ->; reflexivity | congruence].
Qed.

Lemma strict_eq_string_false (v : JsValue) (s : string) :
  strict_eq_string v s = false ↔ v ≠ JStr s.
Proof.
  rewrite <- strict_eq_string_true. destruct (strict_eq_string v s); split; congruence.
Qed.

Lemma index_in_range (arr : list string) (i : Z) (s : string) :
  (0 ≤ i)%Z → arr !! Z.to_nat i = Some s → index arr i = JStr s.
Proof.
  intros Hi Hs. unfold index.
  destruct (Z.ltb_spec i 0) as [Hneg | _]; [lia |].
  rewrite Hs. reflexivity.
Qed.

Lemma index_negative (arr : list string) (i : Z) :
  (i < 0)%Z → index arr i = JUndefined.
Proof.
  intros Hi. unfold index.
  destruct (Z.ltb_spec i 0) as [_ | Hpos]; [reflexivity | lia].
Qed.

(** Every index of a table that is in range names an entry of it. *)
Lemma index_entry (arr : list string) (i : Z) :
  (0 ≤ i < Z.of_nat (length arr))%Z →
  ∃ s, arr !! Z.to_nat i = Some s ∧ index arr i = JStr s.
Proof.
  intros [Hlo Hhi].
  destruct (lookup_lt_is_Some_2 arr (Z.to_nat i)) as [s Hs]; [lia |].
  exists s. split; [exact Hs | by apply index_in_range].
Qed.

(** ** The quality mapper *)

Section QualityMapper.

(** C8. In legacy mode every quality [q] of [0 .. 7] resolves to the entry
    [legacyQualities[q]]; 0 and 1 both resolve to ["plain"], the duplicated
    entry of the table. *)
Theorem qualityName_legacy (q : Z) :
  (0 ≤ q ≤ 7)%Z →
  (∃ s, legacyQualities !! Z.to_nat q = Some s ∧ qualityName true q = JStr s)
  ∧ qualityName true 0 = JStr "plain"
  ∧ qualityName true 1 = JStr "plain".
Proof.
  intros Hq. split; [| split; reflexivity].
  unfold qualityName. apply index_entry. simpl. lia.
Qed.

Lemma qualityName_legacy_witness :
  (0 ≤ 6 ≤ 7)%Z
  ∧ (∃ s, legacyQualities !! Z.to_nat 6 = Some s ∧ qualityName true 6 = JStr s).
Proof.
  split; [lia |]. apply (qualityName_legacy 6). lia.
Defined.

(** C1, as the code has it. With legacy mode off every quality [q] of
    [1 .. 5] resolves to the entry [qualities[q - 1]] of
    [diamond, gold, shadow, meteorite, plain]: quality 1 is ["diamond"]
    and quality 5 is ["plain"]. *)
Theorem qualityName_current (q : Z) :
  (1 ≤ q ≤ 5)%Z →
  (∃ s, qualities !! Z.to_nat (q - 1) = Some s ∧ qualityName false q = JStr s)
  ∧ qualities = [ "diamond"; "gold"; "shadow"; "meteorite"; "plain" ]
  ∧ qualityName false 1 = JStr "diamond"
  ∧ qualityName false 5 = JStr "plain".
Proof.
  intros Hq. split; [| repeat split; reflexivity].
  unfold qualityName. apply index_entry. simpl. lia.
Qed.

Lemma qualityName_current_witness :
  (1 ≤ 2 ≤ 5)%Z
  ∧ (∃ s, qualities !! Z.to_nat (2 - 1) = Some s ∧ qualityName false 2 = JStr s).
Proof.
  split; [lia |]. apply (qualityName_current 2). lia.
Defined.

(** C1 as stated does not hold: quality 1 does not resolve to ["plain"]
    and quality 5 does not resolve to ["diamond"]. *)
Lemma qualityName_current_not_reversed :
  qualityName false 1 ≠ JStr "plain" ∧ qualityName false 5 ≠ JStr "diamond".
Proof.
  split; vm_compute; discriminate.
Qed.

(** C2, the code at quality 0 with legacy mode off: the lookup is
    [qualities[-1]], which is no entry of the table; it completes with
    [undefined], neither an exception nor the name of a neighbouring
    quality. *)
Theorem qualityName_zero_out_of_range :
  qualityName false 0 = index qualities (0 - 1)
  ∧ qualityName false 0 = JUndefined
  ∧ qualityName false 0 ≠ qualityName false 1
  ∧ (∀ s, s ∈ qualities → qualityName false 0 ≠ JStr s).
Proof.
  assert (Hread : qualityName false 0 = JUndefined).
  { unfold qualityName. apply index_negative. lia. }
  split; [reflexivity |]. split; [exact Hread |].
  rewrite Hread. split; [vm_compute; discriminate |].
  intros s _. discriminate.
Qed.

End QualityMapper.

(** ** The layer selector *)

Section LayerSelector.

Implicit Types (this : CompositedCard) (name : JsValue).

(** Unless the card data itself carries a [qualityName] member, the
    non-mythic overlay is handed the quality name under that key. *)
Lemma nonMythicParams_qualityName this name :
  protoCardData this !! "qualityName" = None →
  nonMythicParams name this !! "qualityName" = Some name.
Proof.
  intros Hnone. unfold nonMythicParams.
  rewrite lookup_union_r by exact Hnone.
  rewrite lookup_insert_ne by discriminate.
  apply lookup_insert_eq.
Qed.

(** C5. While [loading] is set, [render] emits the loading placeholder and
    nothing else, whatever the card data, the quality, the mapping flag and
    the size units are. *)
Theorem render_loading this :
  loading this = true →
  render this = [ loadingTemplate ] ∧ length (render this) = 1.
Proof.
  intros Hloading. unfold render. rewrite Hloading. split; reflexivity.
Qed.

Lemma render_loading_witness :
  loading (constructor 0 0) = true
  ∧ render (constructor 0 0) = [ loadingTemplate ]
  ∧ length (render (constructor 0 0)) = 1.
Proof.
  split; [reflexivity |]. apply (render_loading (constructor 0 0)). reflexivity.
Defined.

(** C6. Once [loading] is cleared, [render] emits three layers: the base
    artwork, then the mythic overlay if the rarity is the string
    ["mythic"] and otherwise the non-mythic overlay, which is given the
    quality name, then the text. *)
Theorem render_loaded this :
  loading this = false →
  length (render this) = 3
  ∧ (cardData this "rarity" = JStr "mythic" →
     render this =
       [ baseArtworkLayersTemplate (baseArtworkParams this);
         mythicImageLayersTemplate (mythicParams this);
         textLayersTemplate (textParams this) ])
  ∧ (cardData this "rarity" ≠ JStr "mythic" →
     render this =
       [ baseArtworkLayersTemplate (baseArtworkParams this);
         nonMythicImageLayersTemplate
           (nonMythicParams
              (qualityName (useLegacyQualityMapping this) (quality this)) this);
         textLayersTemplate (textParams this) ]
     ∧ (protoCardData this !! "qualityName" = None →
        nonMythicParams
          (qualityName (useLegacyQualityMapping this) (quality this)) this
          !! "qualityName"
        = Some (qualityName (useLegacyQualityMapping this) (quality this)))).
Proof.
  intros Hloaded. unfold render. rewrite Hloaded.
  split; [reflexivity |]. split.
  - intros Hmythic. apply strict_eq_string_true in Hmythic.
    rewrite Hmythic. reflexivity.
  - intros Hother. apply strict_eq_string_false in Hother.
    rewrite Hother. split; [reflexivity |].
    apply nonMythicParams_qualityName.
Qed.

Lemma render_loaded_witness :
  (loading (cardWithInput (beastRecord "Pyramid Warden" "mythic")) = false
   ∧ render (cardWithInput (beastRecord "Pyramid Warden" "mythic")) =
       [ baseArtworkLayersTemplate
           (baseArtworkParams (cardWithInput (beastRecord "Pyramid Warden" "mythic")));
         mythicImageLayersTemplate
           (mythicParams (cardWithInput (beastRecord "Pyramid Warden" "mythic")));
         textLayersTemplate
           (textParams (cardWithInput (beastRecord "Pyramid Warden" "mythic"))) ])
  ∧ (loading (cardWithInput (beastRecord "Bear" "common")) = false
     ∧ render (cardWithInput (beastRecord "Bear" "common")) =
         [ baseArtworkLayersTemplate
             (baseArtworkParams (cardWithInput (beastRecord "Bear" "common")));
           nonMythicImageLayersTemplate
             (nonMythicParams JUndefined (cardWithInput (beastRecord "Bear" "common")));
           textLayersTemplate
             (textParams (cardWithInput (beastRecord "Bear" "common"))) ]).
Proof.
  split; (split; [reflexivity |]).
  - apply (render_loaded (cardWithInput (beastRecord "Pyramid Warden" "mythic")) eq_refl).
    vm_compute. reflexivity.
  - apply (render_loaded (cardWithInput (beastRecord "Bear" "common")) eq_refl).
    vm_compute. discriminate.
Defined.

(** C10. The constructor leaves [loading] set and [quality] at 0, in place
    of the 5 the field is initialized with; the mapping flag keeps its
    initial [false]. The quality name of such an instance is
    [qualities[-1]], which is [undefined] and no entry of the table, and
    that is the name its non-mythic overlay is given once data has been
    handed in, or fetched and unwrapped, and [loading] is cleared. *)
Theorem constructor_quality_zero (offsetHeight offsetWidth : float) (data : JsValue) :
  let this := constructor offsetHeight offsetWidth in
  let loaded := getProtoDataFromInput (set_inputProtoData data this) in
  loading this = true
  ∧ quality fieldInitializers = 5%Z
  ∧ quality this = 0%Z
  ∧ useLegacyQualityMapping this = false
  ∧ qualityName (useLegacyQualityMapping this) (quality this) = index qualities (-1)
  ∧ index qualities (-1) = JUndefined
  ∧ (∀ s, s ∈ qualities → index qualities (-1) ≠ JStr s)
  ∧ loading loaded = false
  ∧ render loaded =
      [ baseArtworkLayersTemplate (baseArtworkParams loaded);
        if strict_eq_string (cardData loaded "rarity") "mythic"
        then mythicImageLayersTemplate (mythicParams loaded)
        else nonMythicImageLayersTemplate (nonMythicParams JUndefined loaded);
        textLayersTemplate (textParams loaded) ]
  ∧ match getProtoDataFromApi_then data (fst (getProtoDataFromApi this)) with
    | Normal fetched =>
        loading fetched = false
        ∧ render fetched =
            [ baseArtworkLayersTemplate (baseArtworkParams fetched);
              if strict_eq_string (cardData fetched "rarity") "mythic"
              then mythicImageLayersTemplate (mythicParams fetched)
              else nonMythicImageLayersTemplate (nonMythicParams JUndefined fetched);
              textLayersTemplate (textParams fetched) ]
    | Throw _ => True
    end.
Proof.
  intros this loaded.
  repeat split; try reflexivity.
  - intros s _. discriminate.
  - unfold getProtoDataFromApi_then.
    destruct (normalize data) as [record |]; [| exact I].
    split; reflexivity.
Qed.

End LayerSelector.

(** ** The proto data normalizer *)

Section Normalizer.

Implicit Types (data v : JsValue) (this : CompositedCard) (m : gmap string JsValue).

Lemma get_nullish v k : is_nullish v = true → get v k = Throw TypeError.
Proof. destruct v; simpl; congruence. Qed.

Lemma get_not_nullish v k : is_nullish v = false → ∃ x, get v k = Normal x.
Proof. destruct v; simpl; try discriminate; eauto. Qed.

(** Reading a member that a value does not own gives [undefined]. *)
Lemma get_not_member v k :
  is_nullish v = false → member v k = None → get v k = Normal JUndefined.
Proof.
  destruct v; simpl; try discriminate; try reflexivity.
  intros _ Hnone. unfold prop. rewrite Hnone. reflexivity.
Qed.

(** Reading a member that an object owns gives that member. *)
Lemma get_member v k x : member v k = Some x → get v k = Normal x.
Proof.
  destruct v; simpl; try discriminate.
  intros Hsome. unfold prop. rewrite Hsome. reflexivity.
Qed.

(** A member that is not nullish is a member the object owns. *)
Lemma member_prop m k : is_nullish (prop m k) = false → m !! k = Some (prop m k).
Proof.
  unfold prop. destruct (m !! k); simpl; [reflexivity | discriminate].
Qed.

(** The callback on an object, once the three wrapped reads are known. *)
Lemma normalize_object m a h t :
  get (prop m "attack") "Int64" = Normal a →
  get (prop m "health") "Int64" = Normal h →
  get (prop m "tribe") "String" = Normal t →
  normalize (JObj m) =
    Normal (protoCardDataOf (prop m "id") (prop m "type") a h (prop m "effect")
              (prop m "name") (prop m "rarity") (prop m "god") (prop m "mana")
              (prop m "set") t (prop m "art_id")).
Proof.
  intros Ha Hh Ht. unfold normalize.
  cbn [get mbind completion_bind]. rewrite Ha, Hh, Ht. reflexivity.
Qed.

(** The callback stores what the unwrapping produced, or throws with it. *)
Lemma getProtoDataFromApi_then_normalize data this :
  getProtoDataFromApi_then data this =
    match normalize data with
    | Normal record =>
        Normal (requestUpdate (set_loading false (set_protoCardData record this)))
    | Throw e => Throw e
    end.
Proof.
  unfold getProtoDataFromApi_then. destruct (normalize data); reflexivity.
Qed.

(** C7. For a payload with its envelopes in place the callback completes,
    and the record it stores has [attack] and [health] equal to the
    payload's [attack.Int64] and [health.Int64], [tribe] equal to its
    [tribe.String], the nine other members equal to the payload's, and no
    further member. The payload
    [{attack: {Int64: 5}, health: {Int64: 3}, tribe: {String: "beast"}, ...}]
    is stored as [{attack: 5, health: 3, tribe: "beast", ...}]. *)
Theorem getProtoDataFromApi_unwraps data this :
  wellFormed data = true →
  (∃ record,
     normalize data = Normal record
     ∧ getProtoDataFromApi_then data this =
         Normal (requestUpdate (set_loading false (set_protoCardData record this)))
     ∧ (member data "attack" ≫= λ attack, member attack "Int64") = record !! "attack"
     ∧ (member data "health" ≫= λ health, member health "Int64") = record !! "health"
     ∧ (member data "tribe" ≫= λ tribe, member tribe "String") = record !! "tribe"
     ∧ (∀ k, k ∈ verbatimMembers → get data k = Normal (prop record k))
     ∧ dom record = list_to_set recordMembers)
  ∧ normalize (beastPayload "Bear" "common") = Normal (beastRecord "Bear" "common")
  ∧ prop (beastRecord "Bear" "common") "attack" = JNum 5
  ∧ prop (beastRecord "Bear" "common") "health" = JNum 3
  ∧ prop (beastRecord "Bear" "common") "tribe" = JStr "beast".
Proof.
  intros Hwf. split; [| repeat split; vm_compute; reflexivity].
  unfold wellFormed in Hwf.
  apply andb_true_iff in Hwf as [Hwf Htribe].
  apply andb_true_iff in Hwf as [Hattack Hhealth].
  apply bool_decide_eq_true in Hattack as [a Ha], Hhealth as [h Hh], Htribe as [t Ht].
  destruct data as [| | b | x | s | l | m]; try discriminate.
  simpl in Ha, Hh, Ht.
  destruct (m !! "attack") as [attack |] eqn:Eattack; [| discriminate].
  destruct (m !! "health") as [health |] eqn:Ehealth; [| discriminate].
  destruct (m !! "tribe") as [tribe |] eqn:Etribe; [| discriminate].
  simpl in Ha, Hh, Ht.
  assert (Hnorm : normalize (JObj m) =
    Normal (protoCardDataOf (prop m "id") (prop m "type") a h (prop m "effect")
              (prop m "name") (prop m "rarity") (prop m "god") (prop m "mana")
              (prop m "set") t (prop m "art_id"))).
  { apply normalize_object; unfold prop;
      [rewrite Eattack | rewrite Ehealth | rewrite Etribe]; simpl;
      by apply get_member. }
  eexists. split; [exact Hnorm |]. split.
  { rewrite getProtoDataFromApi_then_normalize, Hnorm. reflexivity. }
  simpl. rewrite Eattack, Ehealth, Etribe. simpl. rewrite Ha, Hh, Ht.
  repeat split; try reflexivity.
  intros k Hk. unfold verbatimMembers in Hk.
  repeat (apply elem_of_cons in Hk as [-> | Hk]; [reflexivity |]).
  by apply elem_of_nil in Hk.
Qed.

Lemma getProtoDataFromApi_unwraps_witness :
  wellFormed (beastPayload "Bear" "common") = true
  ∧ ∃ record,
      normalize (beastPayload "Bear" "common") = Normal record
      ∧ getProtoDataFromApi_then (beastPayload "Bear" "common") (constructor 0 0) =
          Normal (requestUpdate (set_loading false (set_protoCardData record (constructor 0 0))))
      ∧ record !! "attack" = Some (JNum 5).
Proof.
  split; [vm_compute; reflexivity |].
  destruct (getProtoDataFromApi_unwraps (beastPayload "Bear" "common") (constructor 0 0))
    as [[record (Hnorm & Hthen & Hattack & _)] _]; [vm_compute; reflexivity |].
  exists record. split; [exact Hnorm |]. split; [exact Hthen |].
  rewrite <- Hattack. vm_compute. reflexivity.
Defined.

(** A value with a nullish member among the three wrapped ones makes the
    unwrapping throw. *)
Lemma normalize_nullish_member data :
  nullishMember data "attack" || nullishMember data "health"
    || nullishMember data "tribe" = true →
  normalize data = Throw TypeError.
Proof.
  intros Hnull.
  destruct data as [| | b | x | s | l | m]; try reflexivity.
  unfold nullishMember in Hnull. cbn [get] in Hnull.
  unfold normalize. cbn [get mbind completion_bind].
  destruct (is_nullish (prop m "attack")) eqn:Ea.
  { rewrite (get_nullish _ "Int64" Ea). reflexivity. }
  destruct (get_not_nullish _ "Int64" Ea) as [a ->].
  destruct (is_nullish (prop m "health")) eqn:Eh.
  { rewrite (get_nullish _ "Int64" Eh). reflexivity. }
  destruct (get_not_nullish _ "Int64" Eh) as [h ->].
  destruct (is_nullish (prop m "tribe")) eqn:Et; [| discriminate].
  rewrite (get_nullish _ "String" Et). reflexivity.
Qed.

(** C3, as the code has it. When [attack], [health] or [tribe] is itself
    absent or [null] (or the payload is), the callback throws a
    [TypeError]. When the three are there, it completes and stores a
    record, and an envelope without its [Int64] or [String] member leaves
    [undefined] in the record for that field. *)
Theorem getProtoDataFromApi_missing_member data this :
  (nullishMember data "attack" || nullishMember data "health"
     || nullishMember data "tribe" = true →
   normalize data = Throw TypeError
   ∧ getProtoDataFromApi_then data this = Throw TypeError)
  ∧ (nullishMember data "attack" || nullishMember data "health"
       || nullishMember data "tribe" = false →
     ∃ record,
       normalize data = Normal record
       ∧ getProtoDataFromApi_then data this =
           Normal (requestUpdate (set_loading false (set_protoCardData record this)))
       ∧ ((member data "attack" ≫= λ attack, member attack "Int64") = None →
          record !! "attack" = Some JUndefined)
       ∧ ((member data "health" ≫= λ health, member health "Int64") = None →
          record !! "health" = Some JUndefined)
       ∧ ((member data "tribe" ≫= λ tribe, member tribe "String") = None →
          record !! "tribe" = Some JUndefined)).
Proof.
  split.
  - intros Hnull. apply normalize_nullish_member in Hnull.
    rewrite getProtoDataFromApi_then_normalize, Hnull. split; reflexivity.
  - intros Hpresent.
    apply orb_false_iff in Hpresent as [Hpresent Ht].
    apply orb_false_iff in Hpresent as [Ha Hh].
    destruct data as [| | b | x | s | l | m]; try discriminate.
    unfold nullishMember in Ha, Hh, Ht. cbn [get] in Ha, Hh, Ht.
    destruct (get_not_nullish _ "Int64" Ha) as [a Ea].
    destruct (get_not_nullish _ "Int64" Hh) as [h Eh].
    destruct (get_not_nullish _ "String" Ht) as [t Et].
    pose proof (normalize_object m a h t Ea Eh Et) as Hnorm.
    eexists. split; [exact Hnorm |]. split.
    { rewrite getProtoDataFromApi_then_normalize, Hnorm. reflexivity. }
    cbn [member]. rewrite (member_prop _ _ Ha), (member_prop _ _ Hh), (member_prop _ _ Ht).
    cbn [mbind option_bind].
    repeat split; intros Hnone;
      [ rewrite (get_not_member _ _ Ha Hnone) in Ea
      | rewrite (get_not_member _ _ Hh Hnone) in Eh
      | rewrite (get_not_member _ _ Ht Hnone) in Et ];
      simplify_eq; reflexivity.
Qed.

Lemma getProtoDataFromApi_missing_member_witness :
  (nullishMember bearWithoutAttack "attack" || nullishMember bearWithoutAttack "health"
     || nullishMember bearWithoutAttack "tribe" = true
   ∧ getProtoDataFromApi_then bearWithoutAttack (constructor 0 0) = Throw TypeError)
  ∧ (nullishMember bearWithoutInt64 "attack" || nullishMember bearWithoutInt64 "health"
       || nullishMember bearWithoutInt64 "tribe" = false
     ∧ ∃ record,
         getProtoDataFromApi_then bearWithoutInt64 (constructor 0 0) =
           Normal (requestUpdate (set_loading false (set_protoCardData record (constructor 0 0))))
         ∧ record !! "attack" = Some JUndefined).
Proof.
  split; (split; [reflexivity |]).
  - apply (getProtoDataFromApi_missing_member bearWithoutAttack (constructor 0 0)).
    reflexivity.
  - destruct (getProtoDataFromApi_missing_member bearWithoutInt64 (constructor 0 0))
      as [_ Hpresent].
    destruct (Hpresent eq_refl) as [record (_ & Hthen & Hattack & _)].
    exists record. split; [exact Hthen |]. apply Hattack. reflexivity.
Defined.

(** C3 as stated does not hold: a payload whose [attack] envelope has no
    [Int64] member raises nothing; the callback completes, clears
    [loading], and the stored [attack] is [undefined]. *)
Lemma getProtoDataFromApi_stores_undefined :
  (member bearWithoutInt64 "attack" ≫= λ attack, member attack "Int64") = None
  ∧ getProtoDataFromApi_then bearWithoutInt64 (constructor 0 0) =
      Normal (requestUpdate (set_loading false
        (set_protoCardData
           (protoCardDataOf (JNum 1) (JStr "creature") JUndefined (JNum 3)
              (JStr "Roar") (JStr "Bear") (JStr "common") (JStr "nature")
              (JNum 2) (JStr "core") (JStr "beast") (JStr "a1"))
           (constructor 0 0))))
  ∧ prop (protoCardDataOf (JNum 1) (JStr "creature") JUndefined (JNum 3)
            (JStr "Roar") (JStr "Bear") (JStr "common") (JStr "nature")
            (JNum 2) (JStr "core") (JStr "beast") (JStr "a1")) "attack" = JUndefined.
Proof.
  repeat split; vm_compute; reflexivity.
Qed.

End Normalizer.

(** ** The responsive size tracker *)

Section SizeTracker.

Implicit Types (this : CompositedCard) (event : UIEvent) (entries : list UIEvent).

(** On a rendered target the handler completes: it measures the
    container, stores one hundredth of each dimension and asks for one
    update. *)
Lemma handleResize_rendered event this :
  rendered event = true →
  ∃ container,
    children (shadowRoot (target event)) !! 0 = Some container
    ∧ handleResize event this =
        Normal (requestUpdate
                  (set_cw (offsetWidth container * 0.01)%float
                     (set_ch (offsetHeight container * 0.01)%float this))).
Proof.
  unfold rendered, handleResize, firstChild.
  destruct (children (shadowRoot (target event))) as [| container rest];
    [discriminate |].
  intros _. exists container. split; reflexivity.
Qed.

Lemma last_cons {A} (x d : A) (l : list A) : List.last (x :: l) d = List.last l x.
Proof.
  revert x d. induction l as [| y l IH]; intros x d; [reflexivity |].
  change (List.last (y :: l) d = List.last (y :: l) x).
  rewrite (IH y d), (IH y x). reflexivity.
Qed.

(** C9, as the code has it. Resize notifications whose targets have
    rendered are all handled, in the order they arrive: the observer's
    callback completes in the state the last one leaves, and the [i]-th
    state reached has [ch] and [cw] at one hundredth of the
    [offsetHeight] and [offsetWidth] of the first child of the shadow
    root of the [i]-th notification's target, one update request more
    than the state before it, and the card data and [loading] untouched.
    Containers measuring [{h: 200, w: 100}, {h: 400, w: 300}] give the
    size units [{ch: 2, cw: 1}, {ch: 4, cw: 3}]. *)
Theorem handleResize_sequence entries this :
  Forall (λ event, rendered event = true) entries →
  resizeObserverCallback entries this =
    Normal (List.last (resizeStates entries this) this)
  ∧ length (resizeStates entries this) = length entries
  ∧ (∀ i event, entries !! i = Some event →
     ∃ container this',
       children (shadowRoot (target event)) !! 0 = Some container
       ∧ resizeStates entries this !! i = Some this'
       ∧ ch this' = (offsetHeight container * 0.01)%float
       ∧ cw this' = (offsetWidth container * 0.01)%float
       ∧ updateRequests this' = updateRequests this + S i
       ∧ protoCardData this' = protoCardData this
       ∧ loading this' = loading this)
  ∧ sizeUnits <$> resizeStates [ resized 200 100; resized 400 300 ] this
    = [ (2, 1); (4, 3) ]%float
  ∧ updateRequests <$> resizeStates [ resized 200 100; resized 400 300 ] this
    = [ updateRequests this + 1; updateRequests this + 2 ].
Proof.
  intros Hrendered.
  assert (Hexample :
    sizeUnits <$> resizeStates [ resized 200 100; resized 400 300 ] this
      = [ (2, 1); (4, 3) ]%float
    ∧ updateRequests <$> resizeStates [ resized 200 100; resized 400 300 ] this
      = [ updateRequests this + 1; updateRequests this + 2 ]).
  { split; [reflexivity |]. simpl. f_equal; [lia | f_equal; lia]. }
  cut (resizeObserverCallback entries this =
         Normal (List.last (resizeStates entries this) this)
       ∧ length (resizeStates entries this) = length entries
       ∧ (∀ i event, entries !! i = Some event →
          ∃ container this',
            children (shadowRoot (target event)) !! 0 = Some container
            ∧ resizeStates entries this !! i = Some this'
            ∧ ch this' = (offsetHeight container * 0.01)%float
            ∧ cw this' = (offsetWidth container * 0.01)%float
            ∧ updateRequests this' = updateRequests this + S i
            ∧ protoCardData this' = protoCardData this
            ∧ loading this' = loading this)).
  { intros (Hrun & Hlen & Hstates). destruct Hexample. auto. }
  clear Hexample. revert this.
  induction Hrendered as [| event rest Hevent _ IH]; intros this.
  - repeat split. intros i event Hi. by rewrite lookup_nil in Hi.
  - destruct (handleResize_rendered event this Hevent) as (container & Hfirst & Hhandled).
    destruct (IH (requestUpdate
                    (set_cw (offsetWidth container * 0.01)%float
                       (set_ch (offsetHeight container * 0.01)%float this))))
      as (IHrun & IHlen & IHstates).
    cbn [resizeObserverCallback resizeStates]. rewrite Hhandled.
    cbn [mbind completion_bind]. rewrite last_cons.
    split; [exact IHrun |]. split; [simpl; by rewrite IHlen |].
    intros [| i] entry Hentry.
    + injection Hentry as <-. exists container. eexists.
      split; [exact Hfirst |]. split; [reflexivity |].
      repeat split. simpl. lia.
    + destruct (IHstates i entry Hentry)
        as (c & this' & Hc & Hthis' & Hch & Hcw & Hupdates & Hdata & Hloading).
      exists c, this'. repeat split; try assumption.
      rewrite Hupdates. simpl. lia.
Qed.

Lemma handleResize_sequence_witness :
  Forall (λ event, rendered event = true) [ resized 200 100; resized 400 300 ]
  ∧ resizeObserverCallback [ resized 200 100; resized 400 300 ] (constructor 0 0) =
      Normal (List.last
                (resizeStates [ resized 200 100; resized 400 300 ] (constructor 0 0))
                (constructor 0 0))
  ∧ sizeUnits <$> resizeStates [ resized 200 100; resized 400 300 ] (constructor 0 0)
    = [ (2, 1); (4, 3) ]%float.
Proof.
  assert (Hrendered :
    Forall (λ event, rendered event = true) [ resized 200 100; resized 400 300 ]).
  { repeat constructor. }
  split; [exact Hrendered |].
  destruct (handleResize_sequence _ (constructor 0 0) Hrendered)
    as (Hrun & _ & _ & Hunits & _).
  split; [exact Hrun | exact Hunits].
Defined.

(** C9 as stated does not hold, in two ways. The size units are not taken
    from the size the observer reports: an entry reporting a content box
    of 200 by 100 for a target whose container measures 150 by 100 leaves
    [ch] at 1.5, not at 2. And not every notification is handled: in the
    delivery of a rendered target, a target that has not rendered and
    another rendered one, the handler throws on the second and the third
    is dropped. *)
Lemma handleResize_reads_container_and_may_throw :
  let squeezed :=
    {| contentRect := {| height := 200; width := 100 |};
       asEvent := resized 150 100 |} in
  (sizeUnits <$> resizeStates [ asEvent squeezed ] (constructor 0 0)
     = [ (1.5, 1)%float ]
   ∧ ((height (contentRect squeezed) * 0.01)%float,
      (width (contentRect squeezed) * 0.01)%float) = (2, 1)%float
   ∧ PrimFloat.eqb 1.5 2 = false)
  ∧ (rendered unrendered = false
     ∧ resizeObserverCallback [ resized 200 100; unrendered; resized 400 300 ]
         (constructor 0 0) = Throw TypeError
     ∧ sizeUnits <$> resizeStates [ resized 200 100; unrendered; resized 400 300 ]
                       (constructor 0 0)
       = [ (2, 1)%float ]).
Proof.
  repeat split.
Qed.

End SizeTracker.

(** ** The render orchestrator *)

Section Orchestrator.

Implicit Types (p : Page) (this : CompositedCard) (data v : JsValue).

(** A changed [protoId] raises [loading] and files one request, for the
    identifier just assigned. *)
Lemma step_ProtoIdChanged p v :
  step p (ProtoIdChanged v) =
    Some {| card := set_loading true (set_protoId v (card p));
            pending :=
              <[issued p := {| endpoint := "https://api.godsunchained.com/v0/proto/";
                               interpolated := v |}]> (pending p);
            issued := S (issued p);
            rejected := rejected p |}.
Proof. reflexivity. Qed.

(** A response whose payload unwraps is stored, whichever outstanding
    request it answers and whatever [protoId] is by then. *)
Lemma step_FetchResolved p request r data record :
  pending p !! request = Some r →
  normalize data = Normal record →
  step p (FetchResolved request data) =
    Some {| card := requestUpdate (set_loading false (set_protoCardData record (card p)));
            pending := delete request (pending p);
            issued := issued p;
            rejected := rejected p |}.
Proof.
  intros Hpending Hnorm. unfold step. rewrite Hpending.
  rewrite getProtoDataFromApi_then_normalize, Hnorm. reflexivity.
Qed.

(** Any response to an outstanding request is taken; the request is no
    longer outstanding afterwards and the others still are. *)
Lemma step_FetchResolved_pending p request r data :
  pending p !! request = Some r →
  ∃ p', step p (FetchResolved request data) = Some p'
        ∧ pending p' = delete request (pending p)
        ∧ issued p' = issued p.
Proof.
  intros Hpending. unfold step. rewrite Hpending.
  destruct (getProtoDataFromApi_then data (card p)); eexists; split; done.
Qed.

(** C4, as the code has it. The identifier is set to [a] and then to [b];
    the fetch for [b] resolves first and the fetch for [a] after it. If the
    payload that arrives for [a] unwraps, the data stored in the end is that
    of [a], the response that arrived last, while [protoId] is [b]: nothing
    records which request is the current one. *)
Theorem stale_fetch_last_resolution_wins p a b dataA dataB recordA :
  normalize dataA = Normal recordA →
  ∃ p2 p4,
    run [ ProtoIdChanged a; ProtoIdChanged b ] p = Some p2
    ∧ interpolated <$> pending p2 !! issued p = Some a
    ∧ interpolated <$> pending p2 !! S (issued p) = Some b
    ∧ run [ FetchResolved (S (issued p)) dataB; FetchResolved (issued p) dataA ] p2
      = Some p4
    ∧ run [ ProtoIdChanged a; ProtoIdChanged b;
            FetchResolved (S (issued p)) dataB; FetchResolved (issued p) dataA ] p
      = Some p4
    ∧ protoId (card p4) = b
    ∧ protoCardData (card p4) = recordA
    ∧ loading (card p4) = false.
Proof.
  intros HrecordA.
  set (requestA := {| endpoint := "https://api.godsunchained.com/v0/proto/";
                      interpolated := a |}).
  set (requestB := {| endpoint := "https://api.godsunchained.com/v0/proto/";
                      interpolated := b |}).
  set (p2 := {| card := set_loading true (set_protoId b (set_loading true (set_protoId a (card p))));
                pending := <[S (issued p) := requestB]> (<[issued p := requestA]> (pending p));
                issued := S (S (issued p));
                rejected := rejected p |}).
  assert (Hp2 : run [ ProtoIdChanged a; ProtoIdChanged b ] p = Some p2) by reflexivity.
  assert (HpendingA : pending p2 !! issued p = Some requestA).
  { simpl. rewrite lookup_insert_ne by lia. apply lookup_insert_eq. }
  assert (HpendingB : pending p2 !! S (issued p) = Some requestB).
  { simpl. apply lookup_insert_eq. }
  destruct (step_FetchResolved_pending p2 (S (issued p)) requestB dataB HpendingB)
    as (p3 & Hp3 & Hpending3 & Hissued3).
  assert (Hcard3 : protoId (card p3) = b).
  { unfold step in Hp3. rewrite HpendingB in Hp3.
    rewrite getProtoDataFromApi_then_normalize in Hp3.
    destruct (normalize dataB); injection Hp3 as <-; reflexivity. }
  assert (HpendingA3 : pending p3 !! issued p = Some requestA).
  { rewrite Hpending3, lookup_delete_ne by lia. exact HpendingA. }
  pose proof (step_FetchResolved p3 (issued p) requestA dataA recordA HpendingA3 HrecordA)
    as Hp4.
  assert (Htail :
    run [ FetchResolved (S (issued p)) dataB; FetchResolved (issued p) dataA ] p2
    = Some {| card := requestUpdate (set_loading false (set_protoCardData recordA (card p3)));
              pending := delete (issued p) (pending p3);
              issued := issued p3;
              rejected := rejected p3 |}).
  { cbn [run]. rewrite Hp3. rewrite Hp4. reflexivity. }
  exists p2. eexists.
  split; [exact Hp2 |].
  split; [rewrite HpendingA; reflexivity |].
  split; [rewrite HpendingB; reflexivity |].
  split; [exact Htail |].
  split; [exact Htail |].
  split; [exact Hcard3 |].
  split; reflexivity.
Qed.

Lemma stale_fetch_last_resolution_wins_witness :
  normalize (beastPayload "Bear" "common") = Normal (beastRecord "Bear" "common")
  ∧ ∃ p4,
      run [ ProtoIdChanged (JNum 1); ProtoIdChanged (JNum 2);
            FetchResolved 1 (beastPayload "Wolf" "common");
            FetchResolved 0 (beastPayload "Bear" "common") ] (newPage 0 0)
      = Some p4
      ∧ protoId (card p4) = JNum 2
      ∧ protoCardData (card p4) = beastRecord "Bear" "common".
Proof.
  assert (Hbear :
    normalize (beastPayload "Bear" "common") = Normal (beastRecord "Bear" "common")).
  { vm_compute. reflexivity. }
  split; [exact Hbear |].
  destruct (stale_fetch_last_resolution_wins (newPage 0 0) (JNum 1) (JNum 2)
              (beastPayload "Bear" "common") (beastPayload "Wolf" "common")
              (beastRecord "Bear" "common") Hbear)
    as (p2 & p4 & _ & _ & _ & _ & Hrun & Hid & Hdata & _).
  exists p4. split; [exact Hrun |]. split; [exact Hid | exact Hdata].
Defined.

(** C4 as stated does not hold. Identifier 1 is requested, then
    identifier 2; the response for 2 (the Wolf) arrives first and the
    response for 1 (the Bear) after it. The card ends up holding the Bear,
    not the Wolf, under [protoId] 2. *)
Lemma stale_fetch_overwrites_newer :
  (λ p, (protoId (card p), prop (protoCardData (card p)) "name", loading (card p)))
    <$> run [ ProtoIdChanged (JNum 1); ProtoIdChanged (JNum 2);
              FetchResolved 1 (beastPayload "Wolf" "common");
              FetchResolved 0 (beastPayload "Bear" "common") ] (newPage 0 0)
  = Some (JNum 2, JStr "Bear", false)
  ∧ (λ p, interpolated <$> pending p !! 1)
      <$> run [ ProtoIdChanged (JNum 1); ProtoIdChanged (JNum 2) ] (newPage 0 0)
    = Some (Some (JNum 2))
  ∧ prop (beastRecord "Wolf" "common") "name" = JStr "Wolf"
  ∧ normalize (beastPayload "Wolf" "common") = Normal (beastRecord "Wolf" "common").
Proof.
  repeat split; vm_compute; reflexivity.
Qed.

End Orchestrator.

(** * Further properties of the code *)

(** ** Quality lookup outside the tables *)

Section QualityBounds.

Lemma index_out_of_range (arr : list string) (i : Z) :
  (i < 0 ∨ Z.of_nat (length arr) ≤ i)%Z → index arr i = JUndefined.
Proof.
  intros [Hneg | Hbig]; [by apply index_negative |].
  unfold index. destruct (Z.ltb_spec i 0) as [_ | Hpos]; [reflexivity |].
  rewrite lookup_ge_None_2 by lia. reflexivity.
Qed.

Lemma qualityName_outside_qualities (q : Z) :
  ¬ (1 ≤ q ≤ 5)%Z → qualityName false q = JUndefined.
Proof.
  intros Hq. unfold qualityName. apply index_out_of_range. simpl. lia.
Qed.

(** X1. The quality lookup never throws, and it yields [undefined] exactly
    outside the table in use: with legacy mode off for every quality other
    than 1 .. 5 (so also for 0, 6 and 7, which the declared type admits),
    with legacy mode on for every quality other than 0 .. 7. *)
Theorem qualityName_undefined_iff (q : Z) :
  (qualityName false q = JUndefined ↔ ¬ (1 ≤ q ≤ 5)%Z)
  ∧ (qualityName true q = JUndefined ↔ ¬ (0 ≤ q ≤ 7)%Z).
Proof.
  unfold qualityName. split; split.
  - intros Hundef Hq.
    destruct (index_entry qualities (q - 1)) as (s & _ & Hs); [simpl; lia |].
    congruence.
  - fold (qualityName false q). apply qualityName_outside_qualities.
  - intros Hundef Hq.
    destruct (index_entry legacyQualities q) as (s & _ & Hs); [simpl; lia |].
    congruence.
  - intros Hq. apply index_out_of_range. simpl. lia.
Qed.

(** X2. The two mappings run in opposite directions: with legacy mode off
    qualities 1 .. 4 name what the legacy mapping names at [8 - q], quality
    5 names what legacy 0 and 1 name, and no quality at all resolves to
    ["bronze"] or ["iron"]. *)
Theorem qualityName_reverses_legacy (q : Z) :
  ((1 ≤ q ≤ 4)%Z → qualityName false q = qualityName true (8 - q))
  ∧ qualityName false 5 = qualityName true 1
  ∧ qualityName false 5 = qualityName true 0
  ∧ qualityName false q ≠ JStr "bronze"
  ∧ qualityName false q ≠ JStr "iron".
Proof.
  assert (Hcases : (1 ≤ q ≤ 5)%Z ∨ ¬ (1 ≤ q ≤ 5)%Z) by lia.
  split; [| split; [reflexivity | split; [reflexivity |]]].
  - intros Hq.
    assert (q = 1 ∨ q = 2 ∨ q = 3 ∨ q = 4)%Z as [-> | [-> | [-> | ->]]] by lia;
      reflexivity.
  - destruct Hcases as [Hin | Hout].
    + assert (q = 1 ∨ q = 2 ∨ q = 3 ∨ q = 4 ∨ q = 5)%Z
        as [-> | [-> | [-> | [-> | ->]]]] by lia;
        split; vm_compute; discriminate.
    + rewrite (qualityName_outside_qualities q Hout). split; discriminate.
Qed.

Lemma qualityName_reverses_legacy_witness :
  (1 ≤ 2 ≤ 4)%Z ∧ qualityName false 2 = qualityName true (8 - 2).
Proof.
  split; [lia |]. apply (qualityName_reverses_legacy 2). lia.
Defined.

End QualityBounds.

(** ** What the unwrapping keeps and what it drops *)

(** Decide that a literal name is none of the record's members. *)
Ltac not_a_record_member :=
  unfold recordMembers; rewrite !not_elem_of_cons;
  repeat split; try discriminate; apply not_elem_of_nil.

Section NormalizerShape.

Implicit Types (data v : JsValue) (m a : gmap string JsValue).

Lemma prop_insert_ne m (k k' : string) v :
  k ≠ k' → prop (<[k := v]> m) k' = prop m k'.
Proof.
  intros Hne. unfold prop. rewrite lookup_insert_ne by exact Hne. reflexivity.
Qed.

Lemma prop_insert_eq m (k : string) v : prop (<[k := v]> m) k = v.
Proof.
  unfold prop. rewrite lookup_insert_eq. reflexivity.
Qed.

(** The unwrapping completes on objects only, and what it builds is the
    twelve-member record of the payload's members and the three wrapped
    reads. *)
Lemma normalize_Normal_inv data record :
  normalize data = Normal record →
  ∃ m x h t,
    data = JObj m
    ∧ get (prop m "attack") "Int64" = Normal x
    ∧ get (prop m "health") "Int64" = Normal h
    ∧ get (prop m "tribe") "String" = Normal t
    ∧ record =
        protoCardDataOf (prop m "id") (prop m "type") x h (prop m "effect")
          (prop m "name") (prop m "rarity") (prop m "god") (prop m "mana")
          (prop m "set") t (prop m "art_id").
Proof.
  destruct data as [| | b | y | s | l | m]; try discriminate.
  unfold normalize. cbn [get mbind completion_bind].
  destruct (get (prop m "attack") "Int64") as [x |] eqn:Ex; [| discriminate].
  destruct (get (prop m "health") "Int64") as [h |] eqn:Eh; [| discriminate].
  destruct (get (prop m "tribe") "String") as [t |] eqn:Et; [| discriminate].
  intros [= <-]. exists m, x, h, t. repeat split; assumption.
Qed.

Lemma normalize_dom data record :
  normalize data = Normal record → dom record = list_to_set recordMembers.
Proof.
  intros Hnorm.
  destruct (normalize_Normal_inv data record Hnorm)
    as (m & x & h & t & _ & _ & _ & _ & ->).
  reflexivity.
Qed.

Lemma normalize_not_member data record (k : string) :
  normalize data = Normal record → k ∉ recordMembers → record !! k = None.
Proof.
  intros Hnorm Hk. apply not_elem_of_dom.
  rewrite (normalize_dom data record Hnorm), elem_of_list_to_set. exact Hk.
Qed.

Lemma normalize_is_member data record (k : string) :
  normalize data = Normal record → k ∈ recordMembers → is_Some (record !! k).
Proof.
  intros Hnorm Hk. apply elem_of_dom.
  rewrite (normalize_dom data record Hnorm), elem_of_list_to_set. exact Hk.
Qed.

(** X3. Whenever the unwrapping completes, the record it builds has the
    twelve members of the card record and no other, whatever further
    members the payload carried; each of the nine plain members reads as
    it does on the payload. *)
Theorem normalize_record_members data record :
  normalize data = Normal record →
  dom record = list_to_set recordMembers
  ∧ (∀ k, k ∉ recordMembers → record !! k = None)
  ∧ (∀ k, k ∈ verbatimMembers → get data k = Normal (prop record k)).
Proof.
  intros Hnorm.
  split; [by apply (normalize_dom data) |].
  split; [intros k; by apply (normalize_not_member data) |].
  destruct (normalize_Normal_inv data record Hnorm)
    as (m & x & h & t & -> & _ & _ & _ & ->).
  intros k Hk. unfold verbatimMembers in Hk.
  repeat (apply elem_of_cons in Hk as [-> | Hk]; [reflexivity |]).
  by apply elem_of_nil in Hk.
Qed.

Lemma normalize_record_members_witness :
  normalize (beastPayload "Bear" "common") = Normal (beastRecord "Bear" "common")
  ∧ dom (beastRecord "Bear" "common") = list_to_set recordMembers.
Proof.
  assert (Hbear :
    normalize (beastPayload "Bear" "common") = Normal (beastRecord "Bear" "common")).
  { vm_compute. reflexivity. }
  split; [exact Hbear |].
  apply (normalize_record_members _ _ Hbear).
Defined.

(** X4. The unwrapping looks at nothing but the twelve members it names:
    adding a further member to the payload, or changing one, changes
    neither whether it completes nor what it builds. *)
Theorem normalize_ignores_other_members m (k : string) v :
  k ∉ recordMembers →
  normalize (JObj (<[k := v]> m)) = normalize (JObj m).
Proof.
  intros Hk. unfold recordMembers in Hk.
  repeat (apply not_elem_of_cons in Hk as [? Hk]).
  unfold normalize. cbn [get mbind completion_bind].
  rewrite !prop_insert_ne by done. reflexivity.
Qed.

Lemma normalize_ignores_other_members_witness :
  ("collectable" ∉ recordMembers)
  ∧ normalize (JObj (<["collectable" := JBool true]> ∅)) = normalize (JObj ∅).
Proof.
  assert (Hk : "collectable" ∉ recordMembers).
  { not_a_record_member. }
  split; [exact Hk |].
  apply (normalize_ignores_other_members ∅ "collectable" (JBool true) Hk).
Defined.

(** X5. Of an envelope only the one member is read: whatever else the
    [attack], [health] or [tribe] envelope carries beside [Int64] or
    [String] (a validity flag, say) has no effect on the outcome. *)
Theorem normalize_ignores_envelope_extras m a (outer inner k : string) v :
  (outer = "attack" ∧ inner = "Int64")
  ∨ (outer = "health" ∧ inner = "Int64")
  ∨ (outer = "tribe" ∧ inner = "String") →
  m !! outer = Some (JObj a) →
  k ≠ inner →
  normalize (JObj (<[outer := JObj (<[k := v]> a)]> m)) = normalize (JObj m).
Proof.
  intros Hmember Houter Hk.
  assert (Hread : get (JObj (<[k := v]> a)) inner = get (prop m outer) inner).
  { unfold prop. rewrite Houter. simpl. unfold prop.
    rewrite lookup_insert_ne by exact Hk. reflexivity. }
  unfold normalize. cbn [get mbind completion_bind].
  destruct Hmember as [[-> ->] | [[-> ->] | [-> ->]]];
    rewrite prop_insert_eq, !prop_insert_ne by done;
    rewrite Hread; reflexivity.
Qed.

Lemma normalize_ignores_envelope_extras_witness :
  let m : gmap string JsValue :=
    <["attack" := envelope "Int64" (JNum 5)]>
    (<["health" := envelope "Int64" (JNum 3)]>
    (<["tribe" := envelope "String" (JStr "beast")]> ∅)) in
  m !! "attack" = Some (JObj (<["Int64" := JNum 5]> ∅))
  ∧ "Valid" ≠ "Int64"
  ∧ normalize
      (JObj (<["attack" := JObj (<["Valid" := JBool false]> (<["Int64" := JNum 5]> ∅))]> m))
    = normalize (JObj m).
Proof.
  intros m.
  assert (Hattack : m !! "attack" = Some (JObj (<["Int64" := JNum 5]> ∅)))
    by reflexivity.
  assert (Hk : "Valid" ≠ "Int64") by discriminate.
  split; [exact Hattack |]. split; [exact Hk |].
  apply (normalize_ignores_envelope_extras m (<["Int64" := JNum 5]> ∅)
           "attack" "Int64" "Valid" (JBool false)
           (or_introl (conj eq_refl eq_refl)) Hattack Hk).
Defined.

End NormalizerShape.

(** ** Direct input and the parameters of the layers *)

Section LayerParameters.

Implicit Types (this : CompositedCard) (name v : JsValue) (k : string).

(** No card member is called [__proto__]. *)
Lemma recordMembers_not_proto k : k ∈ recordMembers → k ≠ "__proto__".
Proof.
  intros Hk ->. unfold recordMembers in Hk.
  repeat (apply elem_of_cons in Hk as [Hk | Hk]; [discriminate |]).
  by apply elem_of_nil in Hk.
Qed.

(** X6. Data handed in directly replaces the stored record wholesale, by
    a copy of the input: the copy owns the members of the input other than
    [__proto__]. When the input has no member [__proto__], every card
    member then reads as it does on the input, so one that the input lacks
    reads [undefined] whatever was stored before, the initial defaults
    included. When the input has an object under [__proto__], that object
    becomes the prototype of the record, and a card member the input lacks
    reads as it does on that object. With [undefined] or [null] as input
    the record is empty, [loading] is cleared all the same, and the card
    renders the non-mythic stack around a base artwork without an [id]. *)
Theorem getProtoDataFromInput_replaces v this :
  let loaded := getProtoDataFromInput (set_inputProtoData v this) in
  loading loaded = false
  ∧ updateRequests loaded = S (updateRequests this)
  ∧ (∀ m, v = JObj m → protoCardData loaded = delete "__proto__" m)
  ∧ (∀ m k, v = JObj m → m !! "__proto__" = None → k ∈ recordMembers →
     cardData loaded k = prop m k
     ∧ (m !! k = None → cardData loaded k = JUndefined))
  ∧ (∀ m p k, v = JObj m → m !! "__proto__" = Some (JObj p) → k ∈ recordMembers →
     cardData loaded k = match m !! k with
                         | Some x => x
                         | None => prop p k
                         end)
  ∧ (is_nullish v = true →
     protoCardData loaded = ∅
     ∧ render loaded =
         [ baseArtworkLayersTemplate
             (<["responsiveSrcsetSizes" := responsiveSrcsetSizes this]>
                (<["id" := JUndefined]> ∅));
           nonMythicImageLayersTemplate
             (<["responsiveSrcsetSizes" := responsiveSrcsetSizes this]>
                (<["qualityName" :=
                     qualityName (useLegacyQualityMapping this) (quality this)]> ∅));
           textLayersTemplate
             (<["cardSet" := JUndefined]>
                (<["cw" := JNum (cw this)]> (<["ch" := JNum (ch this)]> ∅))) ]).
Proof.
  intros loaded. split; [reflexivity |]. split; [reflexivity |].
  split; [intros m ->; reflexivity |].
  split; [| split].
  - intros m k -> Hplain Hk. apply recordMembers_not_proto in Hk.
    assert (Hread : cardData loaded k = prop m k).
    { unfold cardData, inheritedProp, prop.
      change (protoCardData loaded) with (delete "__proto__" m).
      change (protoCardDataPrototype loaded) with (spreadPrototype (JObj m)).
      rewrite lookup_delete_ne by congruence.
      cbn [spreadPrototype]. rewrite Hplain. by destruct (m !! k). }
    split; [exact Hread |].
    intros Hnone. rewrite Hread. unfold prop. rewrite Hnone. reflexivity.
  - intros m p k -> Hproto Hk. apply recordMembers_not_proto in Hk.
    unfold cardData, inheritedProp.
    change (protoCardData loaded) with (delete "__proto__" m).
    change (protoCardDataPrototype loaded) with (spreadPrototype (JObj m)).
    rewrite lookup_delete_ne by congruence.
    cbn [spreadPrototype]. rewrite Hproto. reflexivity.
  - intros Hnull.
    assert (Hempty : protoCardData loaded = ∅).
    { subst loaded. destruct v; try discriminate; reflexivity. }
    assert (Hdefault : protoCardDataPrototype loaded = None).
    { subst loaded. destruct v; try discriminate; reflexivity. }
    split; [exact Hempty |].
    unfold render, baseArtworkParams, nonMythicParams, textParams, cardData, inheritedProp.
    rewrite Hempty, Hdefault. change (loading loaded) with false.
    change (responsiveSrcsetSizes loaded) with (responsiveSrcsetSizes this).
    change (useLegacyQualityMapping loaded) with (useLegacyQualityMapping this).
    change (quality loaded) with (quality this).
    change (ch loaded) with (ch this). change (cw loaded) with (cw this).
    rewrite !(left_id_L ∅ (∪)). reflexivity.
Qed.

Lemma getProtoDataFromInput_replaces_witness :
  let input : gmap string JsValue :=
    <["__proto__" := JObj (<["rarity" := JStr "mythic"]> ∅)]>
      (<["name" := JStr "x"]> ∅) in
  let loaded := getProtoDataFromInput (set_inputProtoData (JObj input) (constructor 0 0)) in
  input !! "__proto__" = Some (JObj (<["rarity" := JStr "mythic"]> ∅))
  ∧ "rarity" ∈ recordMembers
  ∧ protoCardData loaded = <["name" := JStr "x"]> ∅
  ∧ cardData loaded "rarity" = JStr "mythic"
  ∧ is_nullish JNull = true
  ∧ protoCardData (getProtoDataFromInput (set_inputProtoData JNull (constructor 0 0))) = ∅.
Proof.
  intros input loaded.
  assert (Hproto : input !! "__proto__" = Some (JObj (<["rarity" := JStr "mythic"]> ∅)))
    by reflexivity.
  assert (Hrarity : "rarity" ∈ recordMembers).
  { unfold recordMembers. rewrite !elem_of_cons. tauto. }
  destruct (getProtoDataFromInput_replaces (JObj input) (constructor 0 0))
    as (_ & _ & Hown & _ & Hinherited & _).
  destruct (getProtoDataFromInput_replaces JNull (constructor 0 0))
    as (_ & _ & _ & _ & _ & Hnull).
  split; [exact Hproto |]. split; [exact Hrarity |].
  split; [etrans; [exact (Hown input eq_refl) | reflexivity] |].
  split.
  { etrans; [exact (Hinherited input _ "rarity" eq_refl Hproto Hrarity) | reflexivity]. }
  split; [reflexivity |].
  apply (Hnull eq_refl).
Defined.

(** X7. Every member the stored card data owns reaches the overlay and the
    text layer under its own name, and wins there over a parameter the
    component itself supplies under that name ([qualityName],
    [responsiveSrcsetSizes], [ch], [cw]); only [cardSet] is always what
    [protoCardData.set] reads, whatever the card data holds under
    [cardSet]. *)
Theorem layer_params_card_data_wins this name k v :
  protoCardData this !! k = Some v →
  mythicParams this !! k = Some v
  ∧ nonMythicParams name this !! k = Some v
  ∧ (k ≠ "cardSet" → textParams this !! k = Some v)
  ∧ textParams this !! "cardSet" = Some (cardData this "set").
Proof.
  intros Hmember. unfold mythicParams, nonMythicParams, textParams.
  split; [by apply lookup_union_Some_l |].
  split; [by apply lookup_union_Some_l |].
  split; [| apply lookup_insert_eq].
  intros Hk. rewrite lookup_insert_ne by congruence.
  by apply lookup_union_Some_l.
Qed.

Lemma layer_params_card_data_wins_witness :
  let shadowing : gmap string JsValue := <["qualityName" := JStr "gold"]> ∅ in
  protoCardData (cardWithInput shadowing) !! "qualityName" = Some (JStr "gold")
  ∧ nonMythicParams JUndefined (cardWithInput shadowing) !! "qualityName"
    = Some (JStr "gold").
Proof.
  intros shadowing.
  assert (Hmember :
    protoCardData (cardWithInput shadowing) !! "qualityName" = Some (JStr "gold"))
    by reflexivity.
  split; [exact Hmember |].
  destruct (layer_params_card_data_wins (cardWithInput shadowing) JUndefined
              "qualityName" (JStr "gold") Hmember) as (_ & Hoverlay & _).
  exact Hoverlay.
Defined.

(** X8. A record that came out of the unwrapping shadows none of the
    component's own parameters: the non-mythic overlay gets the quality
    name that [render] resolved, both overlays get
    [responsiveSrcsetSizes], and the text layer gets the size units and
    the record's [set] as [cardSet]. *)
Theorem layer_params_of_fetched_record data record this name :
  normalize data = Normal record →
  protoCardData this = record →
  nonMythicParams name this !! "qualityName" = Some name
  ∧ nonMythicParams name this !! "responsiveSrcsetSizes" = Some (responsiveSrcsetSizes this)
  ∧ mythicParams this !! "responsiveSrcsetSizes" = Some (responsiveSrcsetSizes this)
  ∧ textParams this !! "ch" = Some (JNum (ch this))
  ∧ textParams this !! "cw" = Some (JNum (cw this))
  ∧ textParams this !! "cardSet" = Some (prop record "set")
  ∧ (∀ k, k ∈ recordMembers →
     nonMythicParams name this !! k = record !! k
     ∧ mythicParams this !! k = record !! k
     ∧ textParams this !! k = record !! k).
Proof.
  intros Hnorm Hdata.
  assert (Hq : record !! "qualityName" = None)
    by (apply (normalize_not_member data); [done | not_a_record_member]).
  assert (Hr : record !! "responsiveSrcsetSizes" = None)
    by (apply (normalize_not_member data); [done | not_a_record_member]).
  assert (Hch : record !! "ch" = None)
    by (apply (normalize_not_member data); [done | not_a_record_member]).
  assert (Hcw : record !! "cw" = None)
    by (apply (normalize_not_member data); [done | not_a_record_member]).
  assert (Hset : "cardSet" ∉ recordMembers) by not_a_record_member.
  unfold nonMythicParams, mythicParams, textParams. rewrite Hdata.
  split.
  { rewrite lookup_union_r by exact Hq.
    rewrite lookup_insert_ne by discriminate. apply lookup_insert_eq. }
  split.
  { rewrite lookup_union_r by exact Hr. apply lookup_insert_eq. }
  split.
  { rewrite lookup_union_r by exact Hr. apply lookup_insert_eq. }
  split.
  { rewrite lookup_insert_ne by discriminate.
    rewrite lookup_union_r by exact Hch.
    rewrite lookup_insert_ne by discriminate. apply lookup_insert_eq. }
  split.
  { rewrite lookup_insert_ne by discriminate.
    rewrite lookup_union_r by exact Hcw. apply lookup_insert_eq. }
  split.
  { rewrite lookup_insert_eq. f_equal.
    unfold cardData, inheritedProp, prop. rewrite Hdata.
    destruct (normalize_is_member data record "set" Hnorm) as [y ->]; [| reflexivity].
    unfold recordMembers. rewrite !elem_of_cons. tauto. }
  intros k Hk.
  destruct (normalize_is_member data record k Hnorm Hk) as [y Hy].
  assert (Hne : "cardSet" ≠ k) by (intros <-; contradiction).
  rewrite lookup_insert_ne by exact Hne.
  rewrite Hy. repeat split; by apply lookup_union_Some_l.
Qed.

Lemma layer_params_of_fetched_record_witness :
  normalize (beastPayload "Bear" "common") = Normal (beastRecord "Bear" "common")
  ∧ protoCardData (cardWithInput (beastRecord "Bear" "common")) = beastRecord "Bear" "common"
  ∧ nonMythicParams (JStr "gold") (cardWithInput (beastRecord "Bear" "common"))
      !! "qualityName" = Some (JStr "gold").
Proof.
  assert (Hbear :
    normalize (beastPayload "Bear" "common") = Normal (beastRecord "Bear" "common")).
  { vm_compute. reflexivity. }
  split; [exact Hbear |]. split; [reflexivity |].
  destruct (layer_params_of_fetched_record _ _
              (cardWithInput (beastRecord "Bear" "common")) (JStr "gold")
              Hbear eq_refl) as (Hname & _).
  exact Hname.
Defined.

(** X9. The quality plays no part in what a loading card or a mythic card
    renders: changing it leaves the layer stack as it is. *)
Theorem render_ignores_quality_when_mythic this (q : Z) :
  loading this = true ∨ cardData this "rarity" = JStr "mythic" →
  render (set_quality q this) = render this.
Proof.
  intros Hcase. unfold render.
  change (loading (set_quality q this)) with (loading this).
  change (cardData (set_quality q this) "rarity") with (cardData this "rarity").
  destruct (loading this) eqn:Hloading; [reflexivity |].
  destruct Hcase as [Hcase | Hmythic]; [discriminate |].
  apply strict_eq_string_true in Hmythic. rewrite Hmythic. reflexivity.
Qed.

Lemma render_ignores_quality_when_mythic_witness :
  (loading (cardWithInput (beastRecord "Pyramid Warden" "mythic")) = true
   ∨ cardData (cardWithInput (beastRecord "Pyramid Warden" "mythic")) "rarity"
     = JStr "mythic")
  ∧ render (set_quality 4 (cardWithInput (beastRecord "Pyramid Warden" "mythic")))
    = render (cardWithInput (beastRecord "Pyramid Warden" "mythic")).
Proof.
  assert (Hmythic :
    loading (cardWithInput (beastRecord "Pyramid Warden" "mythic")) = true
    ∨ cardData (cardWithInput (beastRecord "Pyramid Warden" "mythic")) "rarity"
      = JStr "mythic").
  { right. vm_compute. reflexivity. }
  split; [exact Hmythic |].
  apply (render_ignores_quality_when_mythic _ 4 Hmythic).
Defined.

End LayerParameters.

(** ** The update hook *)

Section UpdateHook.

Implicit Types (this : CompositedCard) (props : list string).

Lemma updated_protoId props this :
  updated ("protoId" :: props) this =
    (fst (updated props (set_loading true this)),
     requestFor (protoId this) :: snd (updated props (set_loading true this))).
Proof.
  cbn [updated]. change (String.eqb "protoId" "protoId") with true.
  cbn [getProtoDataFromApi fetchProtoData].
  destruct (updated props (set_loading true this)); reflexivity.
Qed.

Lemma updated_inputProtoData props this :
  updated ("inputProtoData" :: props) this = updated props (getProtoDataFromInput this).
Proof. reflexivity. Qed.

Lemma updated_other props this (k : string) :
  k ≠ "protoId" → k ≠ "inputProtoData" →
  updated (k :: props) this = updated props this.
Proof.
  intros Hid Hinput. cbn [updated].
  destruct (String.eqb_spec k "protoId"); [contradiction |].
  destruct (String.eqb_spec k "inputProtoData"); [contradiction |].
  reflexivity.
Qed.

(** The hook changes neither the identifier nor the direct data nor the
    host's other inputs. *)
Lemma updated_keeps_inputs props this :
  protoId (fst (updated props this)) = protoId this
  ∧ inputProtoData (fst (updated props this)) = inputProtoData this
  ∧ hostInputs (fst (updated props this)) = hostInputs this.
Proof.
  revert this. induction props as [| k props IH]; intros this; [done |].
  destruct (decide (k = "protoId")) as [-> | Hid].
  { rewrite updated_protoId. cbn [fst]. apply (IH (set_loading true this)). }
  destruct (decide (k = "inputProtoData")) as [-> | Hinput].
  { rewrite updated_inputProtoData. apply (IH (getProtoDataFromInput this)). }
  rewrite updated_other by assumption. apply IH.
Qed.

Lemma updated_app props1 props2 this :
  fst (updated (props1 ++ props2) this) = fst (updated props2 (fst (updated props1 this))).
Proof.
  revert this. induction props1 as [| k props1 IH]; intros this; [reflexivity |].
  rewrite <- app_comm_cons.
  destruct (decide (k = "protoId")) as [-> | Hid].
  { rewrite !updated_protoId. cbn [fst]. apply IH. }
  destruct (decide (k = "inputProtoData")) as [-> | Hinput].
  { rewrite !updated_inputProtoData. apply IH. }
  rewrite !updated_other by assumption. apply IH.
Qed.

(** X10. The update hook starts one fetch for each [protoId] among the
    changed properties, each for the identifier the card has at that
    moment, and none for any other property; a change that touches
    neither [protoId] nor [inputProtoData] (a new quality, a new mapping
    flag) leaves the card exactly as it is. *)
Theorem updated_requests props this :
  snd (updated props this) =
    replicate (length (filter (λ k, k = "protoId") props)) (requestFor (protoId this))
  ∧ (Forall (λ k, k ≠ "protoId" ∧ k ≠ "inputProtoData") props →
     updated props this = (this, [])).
Proof.
  split.
  - revert this. induction props as [| k props IH]; intros this; [reflexivity |].
    destruct (decide (k = "protoId")) as [-> | Hid].
    { rewrite updated_protoId, filter_cons_True by reflexivity.
      cbn [snd length replicate]. f_equal. apply (IH (set_loading true this)). }
    rewrite filter_cons_False by exact Hid.
    destruct (decide (k = "inputProtoData")) as [-> | Hinput].
    { rewrite updated_inputProtoData. apply (IH (getProtoDataFromInput this)). }
    rewrite updated_other by assumption. apply IH.
  - intros Hother. induction Hother as [| k props [Hid Hinput] _ IH]; [reflexivity |].
    rewrite updated_other by assumption. exact IH.
Qed.

Lemma updated_requests_witness :
  Forall (λ k, k ≠ "protoId" ∧ k ≠ "inputProtoData")
    [ "quality"; "useLegacyQualityMapping" ]
  ∧ updated [ "quality"; "useLegacyQualityMapping" ] (constructor 0 0)
    = (constructor 0 0, []).
Proof.
  assert (Hother :
    Forall (λ k, k ≠ "protoId" ∧ k ≠ "inputProtoData")
      [ "quality"; "useLegacyQualityMapping" ]).
  { repeat constructor; discriminate. }
  split; [exact Hother |].
  apply (updated_requests [ "quality"; "useLegacyQualityMapping" ] (constructor 0 0)).
  exact Hother.
Defined.

(** X11. When several properties changed in one update, the one handled
    last decides: if it is [protoId] the card is left loading, if it is
    [inputProtoData] the card is left loaded with the direct data, a fetch
    started earlier in the same update notwithstanding. *)
Theorem updated_last_property_decides props this :
  loading (fst (updated (props ++ [ "protoId" ]) this)) = true
  ∧ loading (fst (updated (props ++ [ "inputProtoData" ]) this)) = false
  ∧ protoCardData (fst (updated (props ++ [ "inputProtoData" ]) this))
    = spread (inputProtoData this)
  ∧ loading (fst (updated [ "protoId"; "inputProtoData" ] this)) = false
  ∧ snd (updated [ "protoId"; "inputProtoData" ] this) = [ requestFor (protoId this) ].
Proof.
  rewrite !updated_app.
  destruct (updated_keeps_inputs props this) as (_ & Hinput & _).
  repeat split; try reflexivity.
  rewrite updated_inputProtoData. cbn [updated fst].
  change (protoCardData (getProtoDataFromInput (fst (updated props this))))
    with (spread (inputProtoData (fst (updated props this)))).
  rewrite Hinput. reflexivity.
Qed.

End UpdateHook.

(** ** The card over a run of events *)

Section Runs.

Implicit Types (p : Page) (this : CompositedCard) (data v : JsValue)
  (events : list Event) (entries : list UIEvent).

Lemma step_InputProtoDataChanged p v :
  step p (InputProtoDataChanged v) =
    Some (with_card (getProtoDataFromInput (set_inputProtoData v (card p))) p).
Proof. reflexivity. Qed.

(** What the resize handler leaves alone. *)
Lemma handleResize_keeps event this this' :
  handleResize event this = Normal this' →
  hostInputs this' = hostInputs this
  ∧ protoId this' = protoId this
  ∧ inputProtoData this' = inputProtoData this
  ∧ protoCardData this' = protoCardData this
  ∧ loading this' = loading this.
Proof.
  unfold handleResize.
  destruct (firstChild (shadowRoot (target event))) as [container |]; [| discriminate].
  intros [= <-]. repeat split.
Qed.

Lemma resizeStates_last_keeps entries this :
  hostInputs (List.last (resizeStates entries this) this) = hostInputs this
  ∧ protoCardData (List.last (resizeStates entries this) this) = protoCardData this
  ∧ loading (List.last (resizeStates entries this) this) = loading this.
Proof.
  revert this. induction entries as [| event entries IH]; intros this; [done |].
  cbn [resizeStates].
  destruct (handleResize event this) as [this' |] eqn:Hhandled; [| done].
  rewrite last_cons.
  destruct (handleResize_keeps event this this' Hhandled) as (Hi & _ & _ & Hd & Hl).
  destruct (IH this') as (IHi & IHd & IHl).
  rewrite IHi, IHd, IHl. done.
Qed.

(** No event touches the inputs that only the host assigns, and only a
    changed identifier starts a fetch. *)
Lemma step_keeps p e p' :
  step p e = Some p' →
  hostInputs (card p') = hostInputs (card p)
  ∧ issued p' = issued p + (if isProtoIdChanged e then 1 else 0).
Proof.
  destruct e as [v | v | request data | entries].
  - rewrite step_ProtoIdChanged. intros [= <-]. cbn. split; [reflexivity | lia].
  - rewrite step_InputProtoDataChanged. intros [= <-]. cbn. split; [reflexivity | lia].
  - unfold step. destruct (pending p !! request); [| discriminate].
    rewrite getProtoDataFromApi_then_normalize.
    destruct (normalize data); intros [= <-]; cbn; split; (reflexivity || lia).
  - unfold step. intros [= <-]. cbn [card with_card issued isProtoIdChanged].
    split; [apply resizeStates_last_keeps | lia].
Qed.

(** X12. Nothing that happens to a card changes its [quality], its
    mapping flag or its [responsiveSrcsetSizes]: over any run of identifier
    changes, direct inputs, fetch resolutions and resizes they stay as the
    host left them, and the quality name with them. A card that was only
    constructed therefore keeps [undefined] as its quality name through
    every such run. *)
Theorem run_keeps_host_inputs events p p' :
  run events p = Some p' →
  hostInputs (card p') = hostInputs (card p)
  ∧ qualityName (useLegacyQualityMapping (card p')) (quality (card p'))
    = qualityName (useLegacyQualityMapping (card p)) (quality (card p))
  ∧ (∀ offsetHeight offsetWidth, p = newPage offsetHeight offsetWidth →
     qualityName (useLegacyQualityMapping (card p')) (quality (card p')) = JUndefined).
Proof.
  intros Hrun.
  assert (Hinputs : hostInputs (card p') = hostInputs (card p)).
  { revert p Hrun. induction events as [| e events IH]; intros p Hrun.
    - injection Hrun as <-. reflexivity.
    - cbn [run] in Hrun. destruct (step p e) as [p1 |] eqn:Hstep; [| discriminate].
      rewrite (IH p1 Hrun). apply (step_keeps p e p1 Hstep). }
  split; [exact Hinputs |].
  unfold hostInputs in Hinputs. injection Hinputs as Hq Hflag _.
  rewrite Hq, Hflag. split; [reflexivity |].
  intros offsetHeight offsetWidth ->. reflexivity.
Qed.

Lemma run_keeps_host_inputs_witness :
  ∃ p',
    run [ ProtoIdChanged (JNum 1);
          FetchResolved 0 (beastPayload "Bear" "common");
          Resized [ resized 200 100 ] ] (newPage 0 0) = Some p'
    ∧ loading (card p') = false
    ∧ qualityName (useLegacyQualityMapping (card p')) (quality (card p')) = JUndefined.
Proof.
  eexists. split; [vm_compute; reflexivity |]. split; [reflexivity |].
  eapply (run_keeps_host_inputs
            [ ProtoIdChanged (JNum 1);
              FetchResolved 0 (beastPayload "Bear" "common");
              Resized [ resized 200 100 ] ] (newPage 0 0)).
  - vm_compute. reflexivity.
  - reflexivity.
Defined.

(** X13. Every change of the identifier starts a fetch of its own, also
    when the identifier is one already fetched or still being fetched, and
    no other event starts one: over a run, the number of fetches started
    grows by the number of identifier changes. *)
Theorem run_issues_one_fetch_per_change events p p' :
  run events p = Some p' →
  issued p' = issued p + length (filter (λ e, isProtoIdChanged e = true) events).
Proof.
  revert p. induction events as [| e events IH]; intros p Hrun.
  - injection Hrun as <-. simpl. lia.
  - cbn [run] in Hrun. destruct (step p e) as [p1 |] eqn:Hstep; [| discriminate].
    rewrite (IH p1 Hrun).
    destruct (step_keeps p e p1 Hstep) as [_ ->].
    destruct (isProtoIdChanged e) eqn:He.
    + rewrite filter_cons_True by exact He. simpl. lia.
    + rewrite filter_cons_False by (rewrite He; discriminate). lia.
Qed.

Lemma run_issues_one_fetch_per_change_witness :
  ∃ p',
    run [ ProtoIdChanged (JNum 1); ProtoIdChanged (JNum 1);
          InputProtoDataChanged JNull ] (newPage 0 0) = Some p'
    ∧ issued p' =
        issued (newPage 0 0)
        + length (filter (λ e, isProtoIdChanged e = true)
                    [ ProtoIdChanged (JNum 1); ProtoIdChanged (JNum 1);
                      InputProtoDataChanged JNull ])
    ∧ issued p' = 2.
Proof.
  eexists. split; [vm_compute; reflexivity |].
  split; [| reflexivity].
  apply (run_issues_one_fetch_per_change
           [ ProtoIdChanged (JNum 1); ProtoIdChanged (JNum 1);
             InputProtoDataChanged JNull ] (newPage 0 0)).
  vm_compute. reflexivity.
Defined.

(** X14. A response that cannot be unwrapped changes nothing on the card:
    the identifier change had raised [loading], the callback throws before
    it stores anything, and the card is left with the data it had, still
    loading, showing the placeholder, with no update requested; the fetch
    is settled as rejected. *)
Theorem rejected_fetch_leaves_card_loading p v data :
  nullishMember data "attack" || nullishMember data "health"
    || nullishMember data "tribe" = true →
  ∃ p',
    run [ ProtoIdChanged v; FetchResolved (issued p) data ] p = Some p'
    ∧ protoCardData (card p') = protoCardData (card p)
    ∧ loading (card p') = true
    ∧ render (card p') = [ loadingTemplate ]
    ∧ updateRequests (card p') = updateRequests (card p)
    ∧ rejected p' = (rejected p ++ [ issued p ])%list
    ∧ pending p' !! issued p = None.
Proof.
  intros Hnull. apply normalize_nullish_member in Hnull.
  cbn [run]. rewrite step_ProtoIdChanged.
  unfold step. cbn [pending card issued rejected].
  rewrite lookup_insert_eq, getProtoDataFromApi_then_normalize, Hnull.
  eexists. split; [reflexivity |].
  cbn [card pending rejected]. repeat split.
  apply lookup_delete_eq.
Qed.

Lemma rejected_fetch_leaves_card_loading_witness :
  nullishMember bearWithoutAttack "attack" || nullishMember bearWithoutAttack "health"
    || nullishMember bearWithoutAttack "tribe" = true
  ∧ ∃ p',
      run [ ProtoIdChanged (JNum 1); FetchResolved 0 bearWithoutAttack ] (newPage 0 0)
      = Some p'
      ∧ render (card p') = [ loadingTemplate ].
Proof.
  split; [reflexivity |].
  destruct (rejected_fetch_leaves_card_loading (newPage 0 0) (JNum 1) bearWithoutAttack eq_refl)
    as (p' & Hrun & _ & _ & Hrender & _).
  exists p'. split; [exact Hrun | exact Hrender].
Defined.

(** X15. Data handed in directly while a fetch is outstanding shows at
    once, and is lost again when that fetch resolves: the response
    replaces the direct data, although [inputProtoData] still holds it. *)
Theorem fetch_overwrites_direct_input p a v data record :
  normalize data = Normal record →
  ∃ p2 p3,
    run [ ProtoIdChanged a; InputProtoDataChanged v ] p = Some p2
    ∧ loading (card p2) = false
    ∧ protoCardData (card p2) = spread v
    ∧ interpolated <$> pending p2 !! issued p = Some a
    ∧ run [ ProtoIdChanged a; InputProtoDataChanged v; FetchResolved (issued p) data ] p
      = Some p3
    ∧ protoCardData (card p3) = record
    ∧ inputProtoData (card p3) = v
    ∧ loading (card p3) = false.
Proof.
  intros Hnorm.
  cbn [run]. rewrite step_ProtoIdChanged, step_InputProtoDataChanged.
  eexists. eexists. split; [reflexivity |].
  split; [reflexivity |]. split; [reflexivity |].
  split; [cbn [pending with_card]; rewrite lookup_insert_eq; reflexivity |].
  erewrite step_FetchResolved;
    [| cbn [pending with_card]; apply lookup_insert_eq | exact Hnorm].
  split; [reflexivity |]. repeat split.
Qed.

Lemma fetch_overwrites_direct_input_witness :
  normalize (beastPayload "Bear" "common") = Normal (beastRecord "Bear" "common")
  ∧ ∃ p3,
      run [ ProtoIdChanged (JNum 1);
            InputProtoDataChanged (JObj (beastRecord "Wolf" "common"));
            FetchResolved 0 (beastPayload "Bear" "common") ] (newPage 0 0) = Some p3
      ∧ protoCardData (card p3) = beastRecord "Bear" "common".
Proof.
  assert (Hbear :
    normalize (beastPayload "Bear" "common") = Normal (beastRecord "Bear" "common")).
  { vm_compute. reflexivity. }
  split; [exact Hbear |].
  destruct (fetch_overwrites_direct_input (newPage 0 0) (JNum 1)
              (JObj (beastRecord "Wolf" "common")) (beastPayload "Bear" "common")
              (beastRecord "Bear" "common") Hbear)
    as (p2 & p3 & _ & _ & _ & _ & Hrun & Hdata & _).
  exists p3. split; [exact Hrun | exact Hdata].
Defined.

End Runs.

(** ** Resize notifications that fail, and the shared observer *)

Section Observer.

Implicit Types (this el : CompositedCard) (event : UIEvent) (entries : list UIEvent)
  (cards : gmap nat CompositedCard).

Lemma handleResize_unrendered event this :
  rendered event = false → handleResize event this = Throw TypeError.
Proof.
  unfold rendered, handleResize, firstChild.
  destruct (children (shadowRoot (target event))); [reflexivity | discriminate].
Qed.

Lemma resizeObserverCallback_app entries1 entries2 this :
  resizeObserverCallback (entries1 ++ entries2) this =
    (resizeObserverCallback entries1 this ≫= resizeObserverCallback entries2).
Proof.
  revert this. induction entries1 as [| event entries1 IH]; intros this; [reflexivity |].
  rewrite <- app_comm_cons. cbn [resizeObserverCallback].
  destruct (handleResize event this) as [this' |]; [| reflexivity].
  cbn [mbind completion_bind]. apply IH.
Qed.

(** Entries for rendered targets are all handled, one update request
    each. *)
Lemma resizeObserverCallback_rendered entries this :
  Forall (λ event, rendered event = true) entries →
  ∃ this',
    resizeObserverCallback entries this = Normal this'
    ∧ List.last (resizeStates entries this) this = this'
    ∧ length (resizeStates entries this) = length entries
    ∧ updateRequests this' = updateRequests this + length entries.
Proof.
  intros Hrendered. revert this.
  induction Hrendered as [| event entries Hevent _ IH]; intros this.
  - exists this. repeat split. simpl. lia.
  - destruct (handleResize_rendered event this Hevent) as (container & _ & Hhandled).
    cbn [resizeObserverCallback resizeStates]. rewrite Hhandled.
    cbn [mbind completion_bind]. rewrite last_cons.
    destruct (IH (requestUpdate
                    (set_cw (offsetWidth container * 0.01)%float
                       (set_ch (offsetHeight container * 0.01)%float this))))
      as (this' & Hrun & Hlast & Hlen & Hupdates).
    exists this'. split; [exact Hrun |]. split; [exact Hlast |].
    split; [simpl; by rewrite Hlen |].
    rewrite Hupdates. simpl. lia.
Qed.

(** X16. An entry for a target that has not rendered makes the handler
    throw, and the exception ends the delivery: the entries before it
    have taken effect, the entries after it are never handled. *)
Theorem resize_unrendered_target_aborts before bad after this :
  Forall (λ event, rendered event = true) before →
  rendered bad = false →
  resizeObserverCallback (before ++ bad :: after) this = Throw TypeError
  ∧ resizeStates (before ++ bad :: after) this = resizeStates before this
  ∧ length (resizeStates (before ++ bad :: after) this) = length before.
Proof.
  intros Hbefore Hbad.
  assert (Hstates : ∀ this,
    resizeStates (before ++ bad :: after) this = resizeStates before this).
  { induction Hbefore as [| event before Hevent _ IH]; intros c.
    - cbn [app resizeStates]. rewrite (handleResize_unrendered bad c Hbad). reflexivity.
    - rewrite <- app_comm_cons. cbn [resizeStates].
      destruct (handleResize event c); [rewrite IH |]; reflexivity. }
  destruct (resizeObserverCallback_rendered before this Hbefore)
    as (this' & Hrun & _ & Hlen & _).
  split; [| split; [apply Hstates | rewrite Hstates; exact Hlen]].
  rewrite resizeObserverCallback_app, Hrun.
  cbn [mbind completion_bind resizeObserverCallback].
  rewrite (handleResize_unrendered bad this' Hbad). reflexivity.
Qed.

Lemma resize_unrendered_target_aborts_witness :
  let unrendered := {| target := {| shadowRoot := {| children := [] |} |} |} in
  Forall (λ event, rendered event = true) [ resized 200 100 ]
  ∧ rendered unrendered = false
  ∧ resizeObserverCallback ([ resized 200 100 ] ++ unrendered :: [ resized 400 300 ])
      (constructor 0 0) = Throw TypeError
  ∧ sizeUnits <$> resizeStates ([ resized 200 100 ] ++ unrendered :: [ resized 400 300 ])
                    (constructor 0 0)
    = [ (2, 1)%float ].
Proof.
  intros unrendered.
  assert (Hbefore : Forall (λ event, rendered event = true) [ resized 200 100 ]).
  { repeat constructor. }
  split; [exact Hbefore |]. split; [reflexivity |].
  destruct (resize_unrendered_target_aborts [ resized 200 100 ] unrendered
              [ resized 400 300 ] (constructor 0 0) Hbefore eq_refl)
    as (Hthrow & Hstates & _).
  split; [exact Hthrow |]. rewrite Hstates. reflexivity.
Defined.

(** X17. The size units of a card are those of the last notification
    alone: after any delivery that ends with a rendered target, [ch] and
    [cw] are one hundredth of that target's container, whatever the
    earlier notifications and the earlier units were, and the card has
    asked for one update per notification. *)
Theorem resize_last_notification_wins entries final container this :
  Forall (λ event, rendered event = true) entries →
  children (shadowRoot (target final)) !! 0 = Some container →
  ∃ this',
    resizeObserverCallback (entries ++ [ final ]) this = Normal this'
    ∧ sizeUnits this' =
        ((offsetHeight container * 0.01)%float, (offsetWidth container * 0.01)%float)
    ∧ updateRequests this' = updateRequests this + S (length entries)
    ∧ protoCardData this' = protoCardData this
    ∧ loading this' = loading this.
Proof.
  intros Hrendered Hcontainer.
  destruct (resizeObserverCallback_rendered entries this Hrendered)
    as (this1 & Hrun & Hlast & _ & Hupdates).
  assert (Hfinal : rendered final = true).
  { unfold rendered. destruct (children (shadowRoot (target final))); [discriminate | reflexivity]. }
  destruct (handleResize_rendered final this1 Hfinal) as (c & Hc & Hhandled).
  assert (c = container) as -> by congruence.
  eexists. split.
  { rewrite resizeObserverCallback_app, Hrun.
    cbn [mbind completion_bind resizeObserverCallback]. rewrite Hhandled. reflexivity. }
  split; [reflexivity |].
  split; [cbn; rewrite Hupdates; lia |].
  cbn [protoCardData loading requestUpdate set_cw set_ch].
  rewrite <- Hlast.
  destruct (resizeStates_last_keeps entries this) as (_ & Hdata & Hloading).
  split; assumption.
Qed.

Lemma resize_last_notification_wins_witness :
  Forall (λ event, rendered event = true) [ resized 200 100 ]
  ∧ children (shadowRoot (target (resized 400 300))) !! 0
    = Some {| offsetHeight := 400; offsetWidth := 300 |}
  ∧ ∃ this',
      resizeObserverCallback ([ resized 200 100 ] ++ [ resized 400 300 ]) (constructor 0 0)
      = Normal this'
      ∧ sizeUnits this' = (4, 3)%float.
Proof.
  assert (Hbefore : Forall (λ event, rendered event = true) [ resized 200 100 ]).
  { repeat constructor. }
  split; [exact Hbefore |]. split; [reflexivity |].
  destruct (resize_last_notification_wins [ resized 200 100 ] (resized 400 300)
              {| offsetHeight := 400; offsetWidth := 300 |} (constructor 0 0)
              Hbefore eq_refl)
    as (this' & Hrun & Hunits & _).
  exists this'. split; [exact Hrun |]. rewrite Hunits. reflexivity.
Defined.

(** X18. The one observer serves every card without mixing them up. When
    each entry is about a card of the page that has rendered, the callback
    completes; each card ends in the state that its own entries, in their
    order, lead to, so a card with no entry is exactly as before; and no
    card appears or disappears. *)
Theorem ro_callback_serves_each_card (batch : list ResizeObserverEntry) cards :
  Forall (λ e, rendered (entry e) = true ∧ is_Some (cards !! observed e)) batch →
  ∃ cards',
    ro_callback batch cards = Normal cards'
    ∧ dom cards' = dom cards
    ∧ (∀ id el, cards !! id = Some el →
       cards' !! id = Some (List.last (resizeStates (entriesFor id batch) el) el))
    ∧ (∀ id, Forall (λ e, observed e ≠ id) batch → cards' !! id = cards !! id).
Proof.
  intros Hbatch.
  cut (∃ cards',
         ro_callback batch cards = Normal cards'
         ∧ dom cards' = dom cards
         ∧ (∀ id el, cards !! id = Some el →
            cards' !! id = Some (List.last (resizeStates (entriesFor id batch) el) el))).
  { intros (cards' & Hrun & Hdom & Hstates). exists cards'.
    split; [exact Hrun |]. split; [exact Hdom |]. split; [exact Hstates |].
    intros id Hnone.
    assert (Hfor : entriesFor id batch = []).
    { unfold entriesFor. clear -Hnone.
      induction Hnone as [| e batch He _ IH]; [reflexivity |].
      rewrite filter_cons_False by exact He. exact IH. }
    destruct (cards !! id) as [el |] eqn:Hel.
    - rewrite (Hstates id el Hel), Hfor. reflexivity.
    - apply not_elem_of_dom. rewrite Hdom. by apply not_elem_of_dom. }
  revert cards Hbatch.
  induction batch as [| e batch IH]; intros cards Hbatch.
  - exists cards. repeat split. intros id el Hel. exact Hel.
  - apply Forall_cons in Hbatch as [[Hrendered [el0 Hel0]] Hbatch].
    destruct (handleResize_rendered (entry e) el0 Hrendered) as (container & _ & Hhandled).
    set (el0' := requestUpdate
                   (set_cw (offsetWidth container * 0.01)%float
                      (set_ch (offsetHeight container * 0.01)%float el0))) in *.
    destruct (IH (<[observed e := el0']> cards)) as (cards' & Hrun & Hdom & Hstates).
    { eapply Forall_impl; [exact Hbatch |].
      intros e' [Hr Hsome]. split; [exact Hr |].
      rewrite lookup_insert_is_Some. destruct (decide (observed e = observed e')); auto. }
    exists cards'. split.
    { cbn [ro_callback]. rewrite Hel0, Hhandled. exact Hrun. }
    split.
    { rewrite Hdom, dom_insert_L.
      apply subseteq_union_1_L, singleton_subseteq_l, elem_of_dom. eauto. }
    intros id el Hel. unfold entriesFor.
    destruct (decide (observed e = id)) as [Heq | Hne].
    + rewrite filter_cons_True by exact Heq. cbn [fmap list_fmap].
      subst id. assert (el = el0) as -> by congruence.
      cbn [resizeStates]. rewrite Hhandled, last_cons.
      apply Hstates, lookup_insert_eq.
    + rewrite filter_cons_False by exact Hne.
      apply Hstates. rewrite lookup_insert_ne by exact Hne. exact Hel.
Qed.

Lemma ro_callback_serves_each_card_witness :
  let page : gmap nat CompositedCard :=
    <[1 := constructor 0 0]> (<[2 := constructor 0 0]> ∅) in
  let batch := [ {| observed := 1; entry := resized 200 100 |} ] in
  Forall (λ e, rendered (entry e) = true ∧ is_Some (page !! observed e)) batch
  ∧ ∃ cards',
      ro_callback batch page = Normal cards'
      ∧ sizeUnits <$> cards' !! 1 = Some (2, 1)%float
      ∧ cards' !! 2 = Some (constructor 0 0).
Proof.
  intros page batch.
  assert (Hbatch :
    Forall (λ e, rendered (entry e) = true ∧ is_Some (page !! observed e)) batch).
  { repeat constructor. by exists (constructor 0 0). }
  split; [exact Hbatch |].
  destruct (ro_callback_serves_each_card batch page Hbatch)
    as (cards' & Hrun & _ & Hstates & _).
  exists cards'. split; [exact Hrun |]. split.
  - rewrite (Hstates 1 (constructor 0 0) eq_refl). reflexivity.
  - rewrite (Hstates 2 (constructor 0 0) eq_refl). reflexivity.
Defined.

End Observer.

(** ** The stored record and the name [__proto__] *)

Section RecordPrototype.

Implicit Types (p : Page) (this : CompositedCard) (v : JsValue).

(** A decimal numeral does not begin with an underscore. *)
Lemma pretty_N_go_not_underscore (x : N) (s rest : string) :
  s ≠ String "_" rest → pretty_N_go x s ≠ String "_" rest.
Proof.
  revert s. induction (N.lt_wf_0 x) as [x _ IH]; intros s Hs.
  destruct (decide (x = 0%N)) as [-> | Hpos].
  - rewrite pretty_N_go_0. exact Hs.
  - rewrite pretty_N_go_step by lia.
    apply IH; [apply N.div_lt; lia |].
    unfold pretty_N_char. repeat case_match; discriminate.
Qed.

Lemma pretty_nat_not_proto (i : nat) : pretty i ≠ "__proto__".
Proof.
  unfold pretty, pretty_nat, pretty, pretty_N.
  case_decide; [discriminate |].
  apply pretty_N_go_not_underscore. discriminate.
Qed.

Lemma indexed_not_proto (l : list JsValue) : indexed l !! "__proto__" = None.
Proof.
  unfold indexed. apply not_elem_of_list_to_map_1.
  intros Hin. apply list_elem_of_fmap in Hin as ([k x] & Hk & Hin).
  apply elem_of_lookup_imap in Hin as (i & y & Hpair & _).
  injection Hpair as -> _. simpl in Hk.
  by apply (pretty_nat_not_proto i).
Qed.

(** The copy never owns a member [__proto__]. *)
Lemma spread_not_proto v : spread v !! "__proto__" = None.
Proof.
  destruct v as [| | b | x | s | l | m]; cbn [spread];
    try apply lookup_empty; try apply indexed_not_proto.
  apply lookup_delete_eq.
Qed.

Lemma step_not_proto p e p' :
  step p e = Some p' →
  protoCardData (card p) !! "__proto__" = None →
  protoCardData (card p') !! "__proto__" = None.
Proof.
  destruct e as [v | v | request data | entries].
  - rewrite step_ProtoIdChanged. intros [= <-] Hnone. exact Hnone.
  - rewrite step_InputProtoDataChanged. intros [= <-] _. apply spread_not_proto.
  - unfold step. destruct (pending p !! request); [| discriminate].
    rewrite getProtoDataFromApi_then_normalize.
    destruct (normalize data) as [record |] eqn:Hnorm; intros [= <-] Hnone;
      [| exact Hnone].
    apply (normalize_not_member data record "__proto__" Hnorm).
    not_a_record_member.
  - unfold step. intros [= <-] Hnone. cbn [card with_card].
    destruct (resizeStates_last_keeps entries (card p)) as (_ & -> & _).
    exact Hnone.
Qed.

(** X19. The record a card stores never owns a member named [__proto__]:
    the constructed record has none, the record built from a fetched
    payload has the twelve card members only, and the copy of a direct
    input hands [__proto__] to the prototype instead of owning it. So the
    parameter objects that [render] fills by spreading the record own no
    such member either, in any state a run of events reaches. *)
Theorem run_record_never_owns_proto events p p' :
  run events p = Some p' →
  protoCardData (card p) !! "__proto__" = None →
  protoCardData (card p') !! "__proto__" = None
  ∧ mythicParams (card p') !! "__proto__" = None
  ∧ (∀ name, nonMythicParams name (card p') !! "__proto__" = None)
  ∧ textParams (card p') !! "__proto__" = None
  ∧ (∀ offsetHeight offsetWidth,
     protoCardData (card (newPage offsetHeight offsetWidth)) !! "__proto__" = None).
Proof.
  intros Hrun Hstart.
  assert (Hend : protoCardData (card p') !! "__proto__" = None).
  { revert p Hrun Hstart. induction events as [| e events IH]; intros p Hrun Hstart.
    - injection Hrun as <-. exact Hstart.
    - cbn [run] in Hrun. destruct (step p e) as [p1 |] eqn:Hstep; [| discriminate].
      apply (IH p1 Hrun). by apply (step_not_proto p e p1). }
  split; [exact Hend |].
  unfold mythicParams, nonMythicParams, textParams.
  split; [| split; [| split]].
  - rewrite lookup_union_r by exact Hend. by rewrite lookup_insert_ne.
  - intros name. rewrite lookup_union_r by exact Hend.
    by rewrite !lookup_insert_ne.
  - rewrite lookup_insert_ne by discriminate.
    rewrite lookup_union_r by exact Hend. by rewrite !lookup_insert_ne.
  - reflexivity.
Qed.

Lemma run_record_never_owns_proto_witness :
  let input : gmap string JsValue :=
    <["__proto__" := JObj (<["rarity" := JStr "mythic"]> ∅)]>
      (<["name" := JStr "x"]> ∅) in
  protoCardData (card (newPage 0 0)) !! "__proto__" = None
  ∧ ∃ p',
      run [ InputProtoDataChanged (JObj input) ] (newPage 0 0) = Some p'
      ∧ protoCardData (card p') !! "__proto__" = None
      ∧ protoCardDataPrototype (card p') = Some (JObj (<["rarity" := JStr "mythic"]> ∅)).
Proof.
  intros input.
  assert (Hstart : protoCardData (card (newPage 0 0)) !! "__proto__" = None)
    by reflexivity.
  split; [exact Hstart |].
  exists (with_card
            (getProtoDataFromInput (set_inputProtoData (JObj input) (card (newPage 0 0))))
            (newPage 0 0)).
  split; [reflexivity |]. split; [| reflexivity].
  destruct (run_record_never_owns_proto
              [ InputProtoDataChanged (JObj input) ] (newPage 0 0) _ eq_refl Hstart)
    as [Hend _].
  exact Hend.
Defined.

End RecordPrototype.
